(** * The VVM simulator of assets/app.js: assembler and fetch-decode-execute core

    A shallow embedding of [VVMSimulatorModule] (assets/app.js, lines
    1671-2568): the assembler [assembleProgram], the cycle functions [fetch],
    [decode], [execute], [step], and the control functions [loadProgram],
    [loadExampleData] and [reset]; and, from the scenario player of the same
    file, the cursor functions [next] and [prev] with the formatters
    [formatClock] and [formatInstruction].

    Conventions of the embedding.
    - A JavaScript number that the simulator handles is an integer or NaN; a
      read outside an array gives [undefined].  The type [value] has these
      three cases; -0 is not told apart from 0.  Integers are exact (type
      Z), as doubles are below 2^53 in magnitude: [parseInt], [+] and [-]
      are exact in the code, as they are here, while operands and results
      stay below that size, and [%] always is.  The one division of the
      code, in [decode], is computed as the division of doubles is, with its
      rounding ([JS.floor_div]).  A property that needs integers below 2^53
      says so.
    - Program text is made of ASCII characters; [trim], [toUpperCase] and the
      regular expressions [\s] and [\d] are modelled on that range.
    - The DOM, the event bus and the pacing of [run] (the fields [running] and
      [speed], [animationId], [lastStepTime]) are presentation and are not
      part of the machine state below.  The output console is kept as the
      list of the types of its lines. *)

From Stdlib Require Import ZArith Lia Bool Ascii String DecimalString DecimalNat Sorted.
From stdpp Require Import base list strings gmap.

Local Open Scope string_scope.
Local Open Scope list_scope.

(** ** JavaScript values and operators *)

Inductive value : Type :=
  | Num (z : Z)
  | NaN
  | Undefined.

Module JS.

(** [a + b] on numbers; anything that is not a number gives NaN. *)
Definition add (a b : value) : value :=
  match a, b with
  | Num x, Num y => Num (x + y)
  | _, _ => NaN
  end.

Definition sub (a b : value) : value :=
  match a, b with
  | Num x, Num y => Num (x - y)
  | _, _ => NaN
  end.

(** [a < b]; false as soon as one side is NaN or undefined. *)
Definition lt (a b : value) : bool :=
  match a, b with
  | Num x, Num y => (x <? y)%Z
  | _, _ => false
  end.

Definition gt (a b : value) : bool := lt b a.

Definition ge (a b : value) : bool :=
  match a, b with
  | Num x, Num y => (y <=? x)%Z
  | _, _ => false
  end.

Definition le (a b : value) : bool := ge b a.

(** [a === b]. NaN is not equal to itself. *)
Definition seq (a b : value) : bool :=
  match a, b with
  | Num x, Num y => (x =? y)%Z
  | Undefined, Undefined => true
  | _, _ => false
  end.

Definition isNaN (a : value) : bool :=
  match a with
  | Num _ => false
  | _ => true
  end.

(** [Math.abs]. *)
Definition abs (a : value) : value :=
  match a with
  | Num x => Num (Z.abs x)
  | _ => NaN
  end.

(** [a % b]: the remainder has the sign of the dividend; [x % 0] is NaN. *)
Definition rem (a b : value) : value :=
  match a, b with
  | Num x, Num y => if (y =? 0)%Z then NaN else Num (Z.rem x y)
  | _, _ => NaN
  end.

(** [a / b] is a division of doubles: its result is the double nearest to
    the exact quotient, a tie going to the even significand.  The four
    definitions below compute it for integers.

    The integer nearest to [n / d], for [0 < d]; a tie goes to the even one. *)
Definition nearest_even (n d : Z) : Z :=
  let q := (n / d)%Z in
  let r := (n mod d)%Z in
  if (2 * r <? d)%Z then q
  else if (d <? 2 * r)%Z then (q + 1)%Z
  else if Z.even q then q else (q + 1)%Z.

(** The binary exponent of [n / d], for [0 < n] and [0 < d]: the [t] with
    [2^t <= n / d < 2^(t+1)]. *)
Definition quotient_exponent (n d : Z) : Z :=
  let t := (Z.log2 n - Z.log2 d)%Z in
  if (d * 2 ^ Z.max t 0 <=? n * 2 ^ Z.max (- t) 0)%Z then t else (t - 1)%Z.

(** The double [m * 2^e] nearest to [n / d], for [0 < n] and [0 < d]: a
    significand of 53 bits, or of fewer bits at the least exponent -1074. *)
Definition double_div (n d : Z) : Z * Z :=
  let e := Z.max (quotient_exponent n d - 52) (-1074) in
  (nearest_even (n * 2 ^ Z.max (- e) 0) (d * 2 ^ Z.max e 0), e).

(** The floor of the double [x / y], for [y] other than 0. *)
Definition floor_quotient (x y : Z) : Z :=
  if (x =? 0)%Z then 0%Z
  else
    let '(m, e) := double_div (Z.abs x) (Z.abs y) in
    Z.shiftl (Z.sgn x * Z.sgn y * m) e.

Arguments floor_quotient : simpl never.

(** [Math.floor(a / b)] for a non-zero divisor. *)
Definition floor_div (a b : value) : value :=
  match a, b with
  | Num x, Num y => if (y =? 0)%Z then NaN else Num (floor_quotient x y)
  | _, _ => NaN
  end.

(** ** Characters and strings *)

Definition code (c : ascii) : N := N_of_ascii c.

(** White space of [trim] and of [\s], in the ASCII range. *)
Definition is_space (c : ascii) : bool :=
  ((9 <=? code c) && (code c <=? 13) || (code c =? 32))%N.

(** [\d]. *)
Definition is_digit (c : ascii) : bool :=
  ((48 <=? code c) && (code c <=? 57))%N.

Definition upper_char (c : ascii) : ascii :=
  if ((97 <=? code c) && (code c <=? 122))%N
  then ascii_of_N (code c - 32)
  else c.

Fixpoint toUpperCase (s : string) : string :=
  match s with
  | EmptyString => EmptyString
  | String c r => String (upper_char c) (toUpperCase r)
  end.

Fixpoint trimStart (s : string) : string :=
  match s with
  | EmptyString => EmptyString
  | String c r => if is_space c then trimStart r else s
  end.

Definition is_empty (s : string) : bool :=
  match s with
  | EmptyString => true
  | String _ _ => false
  end.

Fixpoint trimEnd (s : string) : string :=
  match s with
  | EmptyString => EmptyString
  | String c r =>
      let r' := trimEnd r in
      if is_space c && is_empty r' then EmptyString else String c r'
  end.

Definition trim (s : string) : string := trimEnd (trimStart s).

(** [s.startsWith(p)]. *)
Fixpoint startsWith (s p : string) : bool :=
  match p with
  | EmptyString => true
  | String a p' =>
      match s with
      | EmptyString => false
      | String b s' => Ascii.eqb a b && startsWith s' p'
      end
  end.

(** [s.substring(n)]. *)
Fixpoint substring (n : nat) (s : string) : string :=
  match n with
  | O => s
  | S n' =>
      match s with
      | EmptyString => EmptyString
      | String _ r => substring n' r
      end
  end.

(** [s.split(sep)[0]] for a non-empty separator: the text before the first
    occurrence of [sep], the whole of [s] when there is none. *)
Fixpoint split_head (sep s : string) : string :=
  match s with
  | EmptyString => EmptyString
  | String c r => if startsWith s sep then EmptyString else String c (split_head sep r)
  end.

(** [s.split(c)] for a one-character separator. *)
Fixpoint split_char (sep : ascii) (s : string) : list string :=
  match s with
  | EmptyString => [EmptyString]
  | String c r =>
      if Ascii.eqb c sep then EmptyString :: split_char sep r
      else match split_char sep r with
           | [] => [String c EmptyString]
           | t :: ts => String c t :: ts
           end
  end.

(** [s.split(/\s+/)]: the pieces between maximal runs of white space. *)
Fixpoint split_spaces_go (inrun : bool) (s : string) : list string :=
  match s with
  | EmptyString => [EmptyString]
  | String c r =>
      if is_space c then
        if inrun then split_spaces_go true r
        else EmptyString :: split_spaces_go true r
      else
        match split_spaces_go false r with
        | [] => [String c EmptyString]
        | t :: ts => String c t :: ts
        end
  end.

Definition split_spaces (s : string) : list string := split_spaces_go false s.

(** [/^-?\d+$/.test(s)]. *)
Fixpoint all_digits (s : string) : bool :=
  match s with
  | EmptyString => true
  | String c r => is_digit c && all_digits r
  end.

Definition digits1 (s : string) : bool := negb (is_empty s) && all_digits s.

Definition is_integer_literal (s : string) : bool :=
  match s with
  | String "-" r => digits1 r
  | _ => digits1 s
  end.

(** [parseInt(s, 10)]: leading white space is skipped, an optional sign is
    read, then the longest run of decimal digits; no digit gives NaN.  The
    result is the integer that the digits denote; the code's is the double
    nearest to it, which is that integer below 2^53. *)
Fixpoint parse_digits (acc : option Z) (s : string) : option Z :=
  match s with
  | EmptyString => acc
  | String c r =>
      if is_digit c then
        parse_digits (Some (10 * default 0%Z acc + Z.of_N (code c - 48))%Z) r
      else acc
  end.

Definition parseInt (s : string) : value :=
  let t := trimStart s in
  let '(sign, body) :=
    match t with
    | String "-" r => ((-1)%Z, r)
    | String "+" r => (1%Z, r)
    | _ => (1%Z, t)
    end in
  match parse_digits None body with
  | Some n => Num (sign * n)
  | None => NaN
  end.

(** [`${n}`] for a natural number. *)
Definition of_nat (n : nat) : string := NilEmpty.string_of_uint (Nat.to_uint n).

End JS.

(** ** The assembler (app.js, lines 1692-1715 and 1827-1922) *)

Definition OPCODES : gmap string Z :=
  list_to_map
    [ ("HALT", 0%Z); ("HLT", 0%Z); ("COB", 0%Z);
      ("ADD", 1%Z);
      ("SUB", 2%Z);
      ("STORE", 3%Z); ("STO", 3%Z); ("STA", 3%Z);
      ("NOP", 4%Z); ("NUL", 4%Z);
      ("LOAD", 5%Z); ("LDA", 5%Z);
      ("BRANCH", 6%Z); ("BR", 6%Z); ("BRU", 6%Z); ("JMP", 6%Z);
      ("BRZ", 7%Z);
      ("BRP", 8%Z);
      ("IN", 901%Z); ("INP", 901%Z);
      ("OUT", 902%Z); ("PRN", 902%Z) ].

Arguments OPCODES : simpl never.

(** One element of the array [program]. *)
Record entry : Type := Entry {
  address : nat;
  bytecode : value;
  line : nat;
  instruction : string;
  operand : value
}.

(** The local variables [address], [program] and [errors] of the loop. *)
Definition locals : Type := (nat * list entry * list string)%type.

(** Lines 1835-1844: the trimmed line without its comment; [None] when the
    loop goes on to the next line. *)
Definition code_only (raw : string) : option string :=
  let line := JS.trim raw in
  if JS.is_empty line || JS.startsWith line "//" || JS.startsWith line ";" then None
  else
    let codeOnly := JS.trim (JS.split_head "//" line) in
    if JS.is_empty codeOnly then None
    else
      let codeOnly := JS.trim (JS.split_head ";" codeOnly) in
      if JS.is_empty codeOnly then None else Some codeOnly.

(** Lines 1887-1889. *)
Definition mnemonic_of (codeOnly : string) : string :=
  JS.toUpperCase (default "" (JS.split_spaces codeOnly !! 0)).

Definition operand_of (codeOnly : string) : value :=
  match JS.split_spaces codeOnly !! 1 with
  | Some t => if JS.is_empty t then Num 0 else JS.parseInt t
  | None => Num 0
  end.

(** Lines 1900-1908. *)
Definition encode (opcode : Z) (operand : value) : value :=
  if ((opcode =? 901) || (opcode =? 902))%Z then Num opcode
  else JS.add (Num (opcode * 100)) (JS.rem operand (Num 100)).

(** Line 1893. *)
Definition unknown_instruction (i : nat) (instruction : string) : string :=
  "Line " +:+ JS.of_nat (i + 1) +:+ ": Unknown instruction '" +:+ instruction +:+ "'".

(** The index that a number accepted as an address stands for. *)
Definition index_of (v : value) : nat :=
  match v with
  | Num z => Z.to_nat z
  | _ => 0
  end.

(** The body of the loop for the line of index [i]. *)
Definition assemble_line (i : nat) (raw : string) (st : locals) : locals :=
  let '(address, program, errors) := st in
  match code_only raw with
  | None => st
  | Some codeOnly =>
      if JS.startsWith codeOnly "*" then
        let newAddr := JS.parseInt (JS.substring 1 codeOnly) in
        if negb (JS.isNaN newAddr) && JS.ge newAddr (Num 0) && JS.le newAddr (Num 99)
        then (index_of newAddr, program, errors)
        else st
      else if JS.startsWith (JS.toUpperCase codeOnly) "DAT" then
        let dataStr := JS.trim (JS.substring 3 codeOnly) in
        let dataValue := JS.parseInt dataStr in
        if negb (JS.isNaN dataValue)
        then (S address, program ++ [Entry address dataValue i "DAT" dataValue], errors)
        else st
      else if JS.is_integer_literal codeOnly then
        let value := JS.parseInt codeOnly in
        (S address, program ++ [Entry address value i "DATA" value], errors)
      else
        let instruction := mnemonic_of codeOnly in
        let operand := operand_of codeOnly in
        match OPCODES !! instruction with
        | None => (address, program, errors ++ [unknown_instruction i instruction])
        | Some opcode =>
            let bytecode := encode opcode operand in
            (S address, program ++ [Entry address bytecode i instruction operand], errors)
        end
  end.

Fixpoint assemble_loop (i : nat) (lines : list string) (st : locals) : locals :=
  match lines with
  | [] => st
  | raw :: rest => assemble_loop (S i) rest (assemble_line i raw st)
  end.

Definition assemble_lines (lines : list string) : list entry * list string :=
  let '(_, program, errors) := assemble_loop 0 lines (0, [], []) in
  (program, errors).

Definition assembleProgram (code : string) : list entry * list string :=
  assemble_lines (JS.split_char "010" code).

Definition nl : string := String "010" "".

(** ** Machine state (app.js, lines 1795-1818) *)

Record cpu_t : Type := Cpu {
  PC : value;
  AC : value;
  IR : value;
  MAR : value;
  MBR : value;
  ZF : bool;   (* cpu.Z *)
  NF : bool    (* cpu.N *)
}.

(** The second argument of [log]. *)
Inductive log_type : Type := info | success | warning | error_line.

Record state_t : Type := State {
  halted : bool;
  error : bool;
  cycle : nat;
  program : list entry;
  currentLine : Z
}.

Record machine : Type := Machine {
  cpu : cpu_t;
  memory : list value;
  state : state_t;
  console : list log_type
}.

Definition set_PC (v : value) (c : cpu_t) : cpu_t :=
  Cpu v (AC c) (IR c) (MAR c) (MBR c) (ZF c) (NF c).
Definition set_AC (v : value) (c : cpu_t) : cpu_t :=
  Cpu (PC c) v (IR c) (MAR c) (MBR c) (ZF c) (NF c).
Definition set_IR (v : value) (c : cpu_t) : cpu_t :=
  Cpu (PC c) (AC c) v (MAR c) (MBR c) (ZF c) (NF c).
Definition set_MAR (v : value) (c : cpu_t) : cpu_t :=
  Cpu (PC c) (AC c) (IR c) v (MBR c) (ZF c) (NF c).
Definition set_MBR (v : value) (c : cpu_t) : cpu_t :=
  Cpu (PC c) (AC c) (IR c) (MAR c) v (ZF c) (NF c).
Definition set_flags (z n : bool) (c : cpu_t) : cpu_t :=
  Cpu (PC c) (AC c) (IR c) (MAR c) (MBR c) z n.

Definition set_halted (b : bool) (s : state_t) : state_t :=
  State b (error s) (cycle s) (program s) (currentLine s).
Definition set_error (b : bool) (s : state_t) : state_t :=
  State (halted s) b (cycle s) (program s) (currentLine s).
Definition set_cycle (n : nat) (s : state_t) : state_t :=
  State (halted s) (error s) n (program s) (currentLine s).
Definition set_program (p : list entry) (s : state_t) : state_t :=
  State (halted s) (error s) (cycle s) p (currentLine s).
Definition set_currentLine (l : Z) (s : state_t) : state_t :=
  State (halted s) (error s) (cycle s) (program s) l.

Definition on_cpu (f : cpu_t -> cpu_t) (m : machine) : machine :=
  Machine (f (cpu m)) (memory m) (state m) (console m).
Definition on_state (f : state_t -> state_t) (m : machine) : machine :=
  Machine (cpu m) (memory m) (f (state m)) (console m).
Definition on_memory (f : list value -> list value) (m : machine) : machine :=
  Machine (cpu m) (f (memory m)) (state m) (console m).
Definition log (t : log_type) (m : machine) : machine :=
  Machine (cpu m) (memory m) (state m) (console m ++ [t]).

(** [let memory = new Array(256).fill(0)] and the initial [cpu] and [state]. *)
Definition cpu0 : cpu_t := Cpu (Num 0) (Num 0) (Num 0) (Num 0) (Num 0) false false.
Definition state0 : state_t := State false false 0 [] (-1).
Definition machine0 : machine := Machine cpu0 (replicate 256 (Num 0)) state0 [].

(** ** Memory as a JavaScript array *)

(** [memory[i]]: [undefined] outside the array. *)
Definition mem_read (mem : list value) (i : value) : value :=
  match i with
  | Num z => if (z <? 0)%Z then Undefined else default Undefined (mem !! Z.to_nat z)
  | _ => Undefined
  end.

(** [memory[a] = v] for an index [a]: past the end the array grows, the
    cells in between being holes that read as [undefined]. *)
Definition mem_write (a : nat) (v : value) (mem : list value) : list value :=
  if (a <? length mem)%nat then <[a := v]> mem
  else mem ++ replicate (a - length mem) Undefined ++ [v].

(** [memory[i] = v] for a register used as index.  A key that is not an
    index leaves the elements of the array as they are. *)
Definition mem_store (i : value) (v : value) (mem : list value) : list value :=
  match i with
  | Num z => if (z <? 0)%Z then mem else mem_write (Z.to_nat z) v mem
  | _ => mem
  end.

(** ** The cycle (app.js, lines 1928-2143) *)

Definition fetch (m : machine) : machine :=
  let m := on_cpu (fun c => set_MAR (PC c) c) m in
  let m := on_cpu (set_MBR (mem_read (memory m) (MAR (cpu m)))) m in
  let m := on_cpu (fun c => set_IR (MBR c) c) m in
  on_cpu (fun c => set_PC (JS.add (PC c) (Num 1)) c) m.

Definition decode (instruction : value) : value * value :=
  if JS.seq instruction (Num 901) || JS.seq instruction (Num 902) then
    (instruction, Num 0)
  else
    let opcode := JS.rem (JS.floor_div (JS.abs instruction) (Num 100)) (Num 10) in
    let operand := JS.rem (JS.abs instruction) (Num 100) in
    (opcode, operand).

(** The labels of [switch (opcode)]. *)
Inductive label : Type :=
  | HALT | ADD | SUB | STORE | NOP | LOAD | BRANCH | BRZ | BRP | IN | OUT | default_case.

Definition switch (opcode : value) : label :=
  match opcode with
  | Num 0 => HALT
  | Num 1 => ADD
  | Num 2 => SUB
  | Num 3 => STORE
  | Num 4 => NOP
  | Num 5 => LOAD
  | Num 6 => BRANCH
  | Num 7 => BRZ
  | Num 8 => BRP
  | Num 901 => IN
  | Num 902 => OUT
  | _ => default_case
  end.

Definition out_of_range (v : value) : bool :=
  JS.lt v (Num (-999)) || JS.gt v (Num 999).

Definition update_flags (m : machine) : machine :=
  on_cpu (fun c => set_flags (JS.seq (AC c) (Num 0)) (JS.lt (AC c) (Num 0)) c) m.

(** Lines 1973-1978, shared by ADD, SUB and LOAD. *)
Definition read_operand (operand : value) (m : machine) : machine :=
  let m := on_cpu (set_MAR operand) m in
  on_cpu (set_MBR (mem_read (memory m) (MAR (cpu m)))) m.

(** [execute]: the machine after the instruction and the type of the line
    it returns for the console.  [input] is the answer of [prompt]:
    [None] when the dialog is cancelled. *)
Definition execute (input : option string) (opcode operand : value) (m : machine)
  : machine * log_type :=
  match switch opcode with
  | HALT => (on_state (set_halted true) m, success)
  | ADD =>
      let m := read_operand operand m in
      let m := on_cpu (fun c => set_AC (JS.add (AC c) (MBR c)) c) m in
      if out_of_range (AC (cpu m)) then (on_state (set_error true) m, error_line)
      else (update_flags m, info)
  | SUB =>
      let m := read_operand operand m in
      let m := on_cpu (fun c => set_AC (JS.sub (AC c) (MBR c)) c) m in
      if out_of_range (AC (cpu m)) then (on_state (set_error true) m, error_line)
      else (update_flags m, info)
  | STORE =>
      let m := on_cpu (set_MAR operand) m in
      let m := on_cpu (fun c => set_MBR (AC c) c) m in
      (on_memory (mem_store (MAR (cpu m)) (MBR (cpu m))) m, info)
  | NOP => (m, info)
  | LOAD =>
      let m := read_operand operand m in
      let m := on_cpu (fun c => set_AC (MBR c) c) m in
      (update_flags m, info)
  | BRANCH => (on_cpu (set_PC operand) m, warning)
  | BRZ =>
      if ZF (cpu m) || JS.seq (AC (cpu m)) (Num 0)
      then (on_cpu (set_PC operand) m, warning)
      else (m, info)
  | BRP =>
      if JS.ge (AC (cpu m)) (Num 0)
      then (on_cpu (set_PC operand) m, warning)
      else (m, info)
  | IN =>
      match input with
      | Some inputValue =>
          let val := JS.parseInt inputValue in
          if negb (JS.isNaN val) && JS.ge val (Num (-999)) && JS.le val (Num 999)
          then (update_flags (on_cpu (set_AC val) m), info)
          else (on_state (set_error true) m, error_line)
      | None => (on_state (set_error true) m, error_line)
      end
  | OUT => (m, success)
  | default_case => (on_state (set_error true) m, error_line)
  end.

(** Lines 2130-2134. *)
Definition highlight (m : machine) : machine :=
  match List.find (fun p => JS.seq (Num (Z.of_nat (address p))) (JS.sub (PC (cpu m)) (Num 1)))
                  (program (state m)) with
  | Some programEntry => on_state (set_currentLine (Z.of_nat (line programEntry))) m
  | None => m
  end.

(** Lines 2136-2140. *)
Definition past_program (m : machine) : bool :=
  JS.ge (PC (cpu m)) (Num (Z.of_nat (length (program (state m)))))
  && negb (halted (state m)).

Definition check_end (m : machine) : machine :=
  if past_program m then log warning (on_state (set_halted true) m) else m.

(** The machine after fetch, decode, execute and the console line. *)
Definition execute_phase (input : option string) (m : machine) : machine :=
  let m := on_state (fun s => set_cycle (S (cycle s)) s) m in
  let m := fetch m in
  let instruction := IR (cpu m) in
  let '(opcode, operand) := decode instruction in
  let '(m, output) := execute input opcode operand m in
  log output m.

Definition step (input : option string) (m : machine) : machine :=
  if halted (state m) || error (state m) then m
  else check_end (highlight (execute_phase input m)).

(** The value that [step] returns: nothing when it did nothing. *)
Definition step_result (input : option string) (m : machine) : option bool :=
  if halted (state m) || error (state m) then None
  else let m' := step input m in
       Some (negb (halted (state m')) && negb (error (state m'))).

(** [step] called once for each answer of the list, as [run] and
    [singleStep] do under the hands of the user. *)
Fixpoint steps (inputs : list (option string)) (m : machine) : machine :=
  match inputs with
  | [] => m
  | input :: rest => steps rest (step input m)
  end.

(** ** Control functions (app.js, lines 2295-2409) *)

(** Lines 2307-2309. *)
Definition load_words (program : list entry) (mem : list value) : list value :=
  foldl (fun mem e => mem_write (address e) (bytecode e) mem) mem program.

(** [loadProgram] with [code] the text of the editor. *)
Definition loadProgram (code : string) (m : machine) : machine :=
  let '(program, errors) := assembleProgram code in
  if (0 <? length errors)%nat then
    let m := foldl (fun m _ => log error_line m) m errors in
    on_state (set_error true) m
  else
    let m := on_memory (load_words program) m in
    let m := on_state (set_program program) m in
    log success m.

(** The boolean that [loadProgram] returns. *)
Definition loadProgram_result (code : string) : bool :=
  negb (0 <? length (assembleProgram code).2)%nat.

(** [memory.fill(0)]. *)
Definition fill0 (mem : list value) : list value := replicate (length mem) (Num 0).

(** Lines 2335-2357. *)
Definition loadExampleData (exampleKey : string) (m : machine) : machine :=
  let m := on_memory fill0 m in
  if String.eqb exampleKey "sum" then
    on_memory (fun mem => mem_write 11 (Num 3) (mem_write 10 (Num 5) mem)) m
  else if String.eqb exampleKey "fibonacci" then
    on_memory (fun mem => mem_write 11 (Num 1) (mem_write 10 (Num 0) mem)) m
  else if String.eqb exampleKey "max" then
    on_memory (fun mem => mem_write 11 (Num 5) (mem_write 10 (Num 7) mem)) m
  else if String.eqb exampleKey "loop" then
    on_memory (fun mem =>
      mem_write 15 (Num 1) (mem_write 14 (Num 0) (mem_write 13 (Num 5) mem))) m
  else m.

(** Lines 2373-2395 and the line that [reset] writes to the console. *)
Definition reset (m : machine) : machine :=
  Machine cpu0 (fill0 (memory m)) state0 (console m ++ [info]).

(** [singleStep] when [run] is not active. *)
Definition singleStep (code : string) (input : option string) (m : machine) : machine :=
  if (length (program (state m)) =? 0)%nat then
    if loadProgram_result code then step input (loadProgram code m)
    else loadProgram code m
  else step input m.

(** The states of the simulator: what the control functions make of the
    initial one. *)
Inductive reachable : machine -> Prop :=
  | reach_init : reachable machine0
  | reach_reset m : reachable m -> reachable (reset m)
  | reach_load code m : reachable m -> reachable (loadProgram code m)
  | reach_example key m : reachable m -> reachable (loadExampleData key m)
  | reach_step input m : reachable m -> reachable (step input m).

(** Lines joined by line feeds, to write program texts. *)
Definition text (lines : list string) : string := String.concat nl lines.

(** The program that the specification gives as an example. *)
Definition spec_program : string := text ["LDA 10"; "HLT"; "*10"; "DAT 005"].

(** ** The cursor of the scenario player (app.js, lines 28-29 and 988-998) *)

(** [next] and [prev] of [SimulationModule] on [stepIndex], for a scenario
    of [len] steps. *)
Definition sim_next (len : nat) (stepIndex : value) : value :=
  JS.rem (JS.add stepIndex (Num 1)) (Num (Z.of_nat len)).

Definition sim_prev (len : nat) (stepIndex : value) : value :=
  JS.rem (JS.add (JS.sub stepIndex (Num 1)) (Num (Z.of_nat len))) (Num (Z.of_nat len)).

(** [s.padStart(targetLength, c)] for a pad of one character. *)
Definition padStart (targetLength : nat) (c : ascii) (s : string) : string :=
  string_of_list_ascii (replicate (targetLength - String.length s) c) +:+ s.

(** [formatClock] and [formatInstruction] for the positive integer
    [stepIndex + 1] that [updateUI] gives them. *)
Definition formatClock (value : nat) : string := padStart 4 "0" (JS.of_nat value).
Definition formatInstruction (value : nat) : string := padStart 2 "0" (JS.of_nat value).

(** ** Vocabulary of the properties *)

(** The test of line 2112: the machine is Halted or Errored. *)
Definition stopped (m : machine) : bool := halted (state m) || error (state m).

(** The word that the next [fetch] reads and what [decode] makes of it. *)
Definition next_instruction (m : machine) : value := mem_read (memory m) (PC (cpu m)).
Definition next_opcode (m : machine) : value := (decode (next_instruction m)).1.
Definition next_operand (m : machine) : value := (decode (next_instruction m)).2.

(** The instructions whose operand is used as an address or as a target. *)
Definition names_address (l : label) : bool :=
  match l with
  | IN | OUT | default_case => false
  | _ => true
  end.

(** A program whose ADD overflows: 600 + 600. *)
Definition overflow_program : string := text ["LDA 3"; "ADD 3"; "HLT"; "DAT 600"].

(** The sum or difference that ADD and SUB assign to AC. *)
Definition arith_result (l : label) (m : machine) : value :=
  let MBR' := mem_read (memory m) (next_operand m) in
  match l with
  | ADD => JS.add (AC (cpu m)) MBR'
  | _ => JS.sub (AC (cpu m)) MBR'
  end.

(** Z is true exactly when AC is 0, N exactly when AC is negative. *)
Definition flag_invariant (c : cpu_t) : Prop :=
  ZF c = JS.seq (AC c) (Num 0) /\ NF c = JS.lt (AC c) (Num 0).

(** The values that [reset] and the initial state give. *)
Definition reset_flags (c : cpu_t) : Prop :=
  AC c = Num 0 /\ ZF c = false /\ NF c = false.

(** The instructions that assign AC. *)
Definition writes_AC (l : label) : bool :=
  match l with
  | ADD | SUB | LOAD | IN => true
  | _ => false
  end.

(** A program of [n] lines NOP. *)
Definition nops (n : nat) : string := text (replicate n "NOP").

(** The highest address that the program loads. *)
Definition last_address (p : list entry) : nat := foldr Nat.max 0 (map address p).

(** Three instructions, each loaded at address 0. *)
Definition overlaid_program : string := text ["NOP"; "*0"; "NOP"; "*0"; "NOP"].

(** The line is one that reaches the table of mnemonics (after the tests of
    lines 1838-1884). *)
Definition mnemonic_line (raw : string) : option string :=
  match code_only raw with
  | None => None
  | Some codeOnly =>
      if JS.startsWith codeOnly "*" then None
      else if JS.startsWith (JS.toUpperCase codeOnly) "DAT" then None
      else if JS.is_integer_literal codeOnly then None
      else Some codeOnly
  end.

(** The error of line [j] (counted from 0) for some instruction. *)
Definition error_of_line (lo hi : nat) (msg : string) : Prop :=
  exists j instr, lo <= j < hi /\ msg = unknown_instruction j instr.

(** The message is the one of line [n] (counted from 1). *)
Definition mentions_line (n : nat) (msg : string) : bool :=
  JS.startsWith msg ("Line " +:+ JS.of_nat n +:+ ":").

(** The line reaches the table of mnemonics and its mnemonic is not there. *)
Definition unknown_mnemonic (raw : string) : bool :=
  match mnemonic_line raw with
  | Some codeOnly => bool_decide (OPCODES !! mnemonic_of codeOnly = None)
  | None => false
  end.

(** The mnemonic of such a line, as line 1888 computes it. *)
Definition mnemonic_at (raw : string) : string :=
  mnemonic_of (default "" (mnemonic_line raw)).

(** The text of a line that the test of line 1856 takes. *)
Definition dat_line (raw : string) : option string :=
  match code_only raw with
  | Some codeOnly =>
      if JS.startsWith (JS.toUpperCase codeOnly) "DAT" then Some codeOnly else None
  | None => None
  end.

(** Lines 1857-1858. *)
Definition dat_value (codeOnly : string) : value :=
  JS.parseInt (JS.trim (JS.substring 3 codeOnly)).

(** BRANCH, BRZ and BRP. *)
Definition is_branch (l : label) : bool :=
  match l with
  | BRANCH | BRZ | BRP => true
  | _ => false
  end.






(** The text of a line that is neither a directive nor a DAT line. *)
Definition mnemonic_or_data (raw : string) : option string :=
  match code_only raw with
  | None => None
  | Some codeOnly =>
      if JS.startsWith codeOnly "*" then None
      else if JS.startsWith (JS.toUpperCase codeOnly) "DAT" then None
      else Some codeOnly
  end.
(** A character that is neither white space nor part of a comment mark. *)
Definition plain_char (c : ascii) : bool :=
  negb (JS.is_space c) && negb (Ascii.eqb "/" c) && negb (Ascii.eqb ";" c).

Fixpoint plain (s : string) : bool :=
  match s with
  | EmptyString => true
  | String c r => plain_char c && plain r
  end.
(** The number that [execute] accepts from the answer of [prompt]. *)
Definition accepted_input (input : option string) : option Z :=
  match input with
  | Some inputValue =>
      match JS.parseInt inputValue with
      | Num v => if ((-999 <=? v) && (v <=? 999))%Z then Some v else None
      | _ => None
      end
  | None => None
  end.

(** Two machines that differ at most by their consoles. *)
Definition same_machine (m1 m2 : machine) : Prop :=
  cpu m1 = cpu m2 /\ memory m1 = memory m2 /\ state m1 = state m2.
(** ADD and SUB. *)
Definition is_arith (l : label) : bool :=
  match l with
  | ADD | SUB => true
  | _ => false
  end.
(** The character [x] does not occur in [s]. *)
Fixpoint lacks (x : ascii) (s : string) : bool :=
  match s with
  | EmptyString => true
  | String c r => negb (Ascii.eqb x c) && lacks x r
  end.

Definition line_order (e1 e2 : entry) : Prop := line e1 < line e2.

Definition no_directive (raw : string) : bool :=
  match code_only raw with
  | Some codeOnly => negb (JS.startsWith codeOnly "*")
  | None => true
  end.

(** The words that [execute] does not know: what is not a number, and the
    numbers with hundreds digit 9 other than 901 and 902 (the digit is the
    one that [decode] reads for a number below 2^53). *)
Definition unknown_word (v : value) : Prop :=
  match v with
  | Num w => w <> 901%Z /\ w <> 902%Z /\ ((Z.abs w / 100) mod 10 = 9)%Z
  | _ => True
  end.

Definition index_value (v : value) : Prop := exists z, v = Num z /\ (0 <= z)%Z.

(** A fetched word that is a number and that a double holds with all its
    digits: NaN, or an integer below 2^53 in magnitude. *)
Definition safe_word (v : value) : Prop :=
  match v with
  | Num w => (Z.abs w < 2 ^ 53)%Z
  | NaN => True
  | Undefined => False
  end.

(** A line with an unknown mnemonic, in the words of the specification: the
    first word of its code, in upper case, is not a key of the table. *)
Definition first_word_unknown (raw : string) : bool :=
  match code_only raw with
  | Some codeOnly => bool_decide (OPCODES !! mnemonic_of codeOnly = None)
  | None => false
  end.

(** * Properties *)

(** ** The embedding on examples *)

Example parseInt_examples :
  JS.parseInt "10" = Num 10 /\ JS.parseInt "005" = Num 5 /\
  JS.parseInt "-7" = Num (-7) /\ JS.parseInt "12abc" = Num 12 /\
  JS.parseInt "" = NaN /\ JS.parseInt "ABASE 5" = NaN /\
  JS.parseInt " +3" = Num 3 /\ JS.parseInt "-" = NaN.
Proof. repeat split; reflexivity. Qed.

Example split_examples :
  JS.split_char "010" ("a" +:+ String "010" "b") = ["a"; "b"] /\
  JS.split_spaces "ADD  99" = ["ADD"; "99"] /\
  JS.split_spaces "OUT" = ["OUT"] /\
  JS.split_spaces " a b " = [""; "a"; "b"; ""] /\
  JS.split_head "//" "LDA 1 // x" = "LDA 1 " /\
  JS.split_head ";" "" = "" /\
  JS.trim "  HLT   " = "HLT" /\
  JS.toUpperCase "brz" = "BRZ" /\
  JS.of_nat 12 = "12".
Proof. repeat split; reflexivity. Qed.

Example assemble_spec_example :
  assembleProgram ("LDA 10" +:+ nl +:+ "HLT" +:+ nl +:+ "*10" +:+ nl +:+ "DAT 005") =
  ([Entry 0 (Num 510) 0 "LDA" (Num 10); Entry 1 (Num 0) 1 "HLT" (Num 0);
    Entry 10 (Num 5) 3 "DAT" (Num 5)], []).
Proof. vm_compute. reflexivity. Qed.

Example assemble_unknown_example :
  assembleProgram ("in // read" +:+ nl +:+ "FOO 5" +:+ nl +:+ "out") =
  ([Entry 0 (Num 901) 0 "IN" (Num 0); Entry 1 (Num 902) 2 "OUT" (Num 0)],
   ["Line 2: Unknown instruction 'FOO'"]).
Proof. vm_compute. reflexivity. Qed.

Example run_spec_program :
  let m := steps [None; None] (loadProgram spec_program machine0) in
  AC (cpu m) = Num 5 /\ halted (state m) = true /\ error (state m) = false /\
  memory m !! 0 = Some (Num 510) /\ memory m !! 10 = Some (Num 5).
Proof. vm_compute. repeat split; reflexivity. Qed.

(** ** A stopped machine is frozen *)

Lemma step_stopped input m : stopped m = true -> step input m = m.
Proof. unfold stopped, step. intros ->. reflexivity. Qed.

Lemma steps_stopped inputs m : stopped m = true -> steps inputs m = m.
Proof.
  intros Hs. induction inputs as [|input rest IH]; simpl.
  - reflexivity.
  - rewrite (step_stopped input m Hs). exact IH.
Qed.


Lemma decode_next m : decode (next_instruction m) = (next_opcode m, next_operand m).
Proof. unfold next_opcode, next_operand. destruct (decode _); reflexivity. Qed.

(** [execute_phase] in terms of the instruction about to be fetched. *)
Lemma execute_phase_eq input m :
  execute_phase input m =
  let m1 := fetch (on_state (fun s => set_cycle (S (cycle s)) s) m) in
  let r := execute input (next_opcode m) (next_operand m) m1 in
  log r.2 r.1.
Proof.
  unfold execute_phase. cbn zeta.
  change (IR (cpu (fetch (on_state (fun s => set_cycle (S (cycle s)) s) m))))
    with (next_instruction m).
  rewrite decode_next. destruct (execute _ _ _ _); reflexivity.
Qed.

(** ** The quotient of [decode]

    Below 2^53 the division of doubles by 100, followed by [Math.floor],
    gives the integer quotient: the double nearest to [x / 100] lies on the
    same side of every integer as [x / 100] itself. *)

Lemma nearest_even_bounds n d :
  (0 < d)%Z ->
  (n / d <= JS.nearest_even n d <= n / d + 1)%Z /\
  (JS.nearest_even n d = (n / d + 1)%Z -> (d <= 2 * (n mod d))%Z).
Proof.
  intros Hd. unfold JS.nearest_even. cbv zeta.
  destruct (Z.ltb_spec (2 * (n mod d)) d); [lia|].
  destruct (Z.ltb_spec d (2 * (n mod d))); [lia|].
  destruct (Z.even (n / d)); lia.
Qed.

Lemma quotient_exponent_le n d :
  (JS.quotient_exponent n d <= Z.log2 n - Z.log2 d)%Z.
Proof. unfold JS.quotient_exponent. cbv zeta. destruct (_ <=? _)%Z; lia. Qed.

Lemma scaled_floor x P :
  (0 <= x)%Z -> (64 <= P)%Z -> (JS.nearest_even (x * P) 100 / P = x / 100)%Z.
Proof.
  intros Hx HP.
  destruct (nearest_even_bounds (x * P) 100 ltac:(lia)) as [[Hlo Hhi] Hup].
  pose proof (Z.div_mod (x * P) 100 ltac:(lia)) as HN.
  pose proof (Z.mod_pos_bound (x * P) 100 ltac:(lia)) as Hr.
  pose proof (Z.div_mod x 100 ltac:(lia)) as Hx'.
  pose proof (Z.mod_pos_bound x 100 ltac:(lia)) as Hb.
  set (m := JS.nearest_even (x * P) 100) in *.
  set (q := (x * P / 100)%Z) in *. set (r := ((x * P) mod 100)%Z) in *.
  set (a := (x / 100)%Z) in *. set (b := (x mod 100)%Z) in *.
  symmetry. apply Z.div_unique with (m - P * a)%Z; [|lia].
  left.
  assert (HxP : (x * P = 100 * (a * P) + b * P)%Z) by nia.
  assert (HbP : (0 <= b * P <= 99 * P)%Z) by nia.
  assert (Hq1 : (a * P <= q)%Z) by nia.
  split; [nia|].
  destruct (Z.eq_dec m (q + 1)%Z) as [E|E].
  - specialize (Hup E). nia.
  - assert (m = q) by lia. nia.
Qed.

Lemma floor_quotient_exact x :
  (0 <= x < 2 ^ 53)%Z -> JS.floor_quotient x 100 = (x / 100)%Z.
Proof.
  intros Hx. unfold JS.floor_quotient.
  destruct (Z.eqb_spec x 0) as [->|Hn]; [reflexivity|].
  unfold JS.double_div. cbv zeta.
  rewrite (Z.abs_eq x) by lia. change (Z.abs 100) with 100%Z.
  set (e := Z.max (JS.quotient_exponent x 100 - 52) (-1074)).
  assert (He : (e <= -6)%Z).
  { pose proof (quotient_exponent_le x 100) as H.
    change (Z.log2 100) with 6%Z in H.
    assert (Z.log2 x < 53)%Z by (apply Z.log2_lt_pow2; lia).
    unfold e. lia. }
  rewrite (Z.max_l (- e) 0), (Z.max_r e 0) by lia.
  change (100 * 2 ^ 0)%Z with 100%Z.
  rewrite (Z.sgn_pos x) by lia. change (Z.sgn 100) with 1%Z.
  rewrite !Z.mul_1_l, ?Z.mul_1_r.
  rewrite Z.shiftl_div_pow2 by lia.
  apply scaled_floor; [lia|].
  change 64%Z with (2 ^ 6)%Z. apply Z.pow_le_mono_r; lia.
Qed.

(** The quotient is never negative for a dividend and a divisor that are
    not. *)
Lemma floor_quotient_nonneg x y :
  (0 <= x)%Z -> (0 < y)%Z -> (0 <= JS.floor_quotient x y)%Z.
Proof.
  intros Hx Hy. unfold JS.floor_quotient.
  destruct (Z.eqb_spec x 0) as [->|Hn]; [lia|].
  unfold JS.double_div. cbv zeta.
  rewrite (Z.sgn_pos x), (Z.sgn_pos y), Z.abs_eq, Z.abs_eq by lia.
  set (e := Z.max (JS.quotient_exponent x y - 52) (-1074)).
  apply Z.shiftl_nonneg.
  pose proof (Z.pow_pos_nonneg 2 (Z.max e 0) ltac:(lia) ltac:(lia)) as H1.
  pose proof (Z.pow_pos_nonneg 2 (Z.max (- e) 0) ltac:(lia) ltac:(lia)) as H2.
  destruct (nearest_even_bounds (x * 2 ^ Z.max (- e) 0) (y * 2 ^ Z.max e 0)
              ltac:(nia)) as [[Hlo _] _].
  assert (0 <= x * 2 ^ Z.max (- e) 0 / (y * 2 ^ Z.max e 0))%Z
    by (apply Z.div_pos; nia).
  lia.
Qed.

(** ** Operands of the instructions that name an address *)

Lemma decode_quotient w :
  decode (Num w) =
  if ((w =? 901) || (w =? 902))%Z then (Num w, Num 0)
  else (Num (Z.rem (JS.floor_quotient (Z.abs w) 100) 10), Num (Z.rem (Z.abs w) 100)).
Proof. unfold decode. simpl. destruct ((w =? 901) || (w =? 902))%Z; reflexivity. Qed.

Lemma decode_num w :
  (Z.abs w < 2 ^ 53)%Z ->
  decode (Num w) =
  if ((w =? 901) || (w =? 902))%Z then (Num w, Num 0)
  else (Num (Z.rem (Z.abs w / 100) 10), Num (Z.rem (Z.abs w) 100)).
Proof.
  intros Hw. rewrite decode_quotient, floor_quotient_exact by lia. reflexivity.
Qed.

Lemma switch_num opcode :
  switch opcode <> default_case -> exists k, opcode = Num k.
Proof. destruct opcode; simpl; [eauto | congruence | congruence]. Qed.

Lemma decode_opcode_num w k :
  (decode w).1 = Num k -> exists z, w = Num z.
Proof.
  destruct w as [z| |]; [eauto | |]; unfold decode; simpl; discriminate.
Qed.

Lemma operand_in_range w :
  names_address (switch (decode w).1) = true ->
  exists z, (decode w).2 = Num z /\ (0 <= z < 100)%Z.
Proof.
  intros H.
  assert (Hd : switch (decode w).1 <> default_case) by (intros E; rewrite E in H; discriminate).
  destruct (switch_num _ Hd) as [k Hk].
  destruct (decode_opcode_num _ _ Hk) as [z ->].
  rewrite decode_quotient in *.
  destruct ((z =? 901) || (z =? 902))%Z eqn:E.
  - exfalso. simpl in H.
    apply orb_true_iff in E as [E|E]; apply Z.eqb_eq in E; subst z; discriminate.
  - simpl. eexists; split; [reflexivity|].
    pose proof (Z.rem_bound_pos (Z.abs z) 100). lia.
Qed.

(** ** Frame lemmas for the parts of [step] *)

Lemma highlight_cpu m : cpu (highlight m) = cpu m.
Proof. unfold highlight. destruct (List.find _ _); reflexivity. Qed.

Lemma highlight_memory m : memory (highlight m) = memory m.
Proof. unfold highlight. destruct (List.find _ _); reflexivity. Qed.

Lemma highlight_console m : console (highlight m) = console m.
Proof. unfold highlight. destruct (List.find _ _); reflexivity. Qed.

Lemma highlight_flags m :
  halted (state (highlight m)) = halted (state m) /\
  error (state (highlight m)) = error (state m) /\
  program (state (highlight m)) = program (state m) /\
  cycle (state (highlight m)) = cycle (state m).
Proof. unfold highlight. destruct (List.find _ _); repeat split; reflexivity. Qed.

Lemma check_end_cpu m : cpu (check_end m) = cpu m.
Proof. unfold check_end. destruct (past_program m); reflexivity. Qed.

Lemma check_end_memory m : memory (check_end m) = memory m.
Proof. unfold check_end. destruct (past_program m); reflexivity. Qed.

Lemma check_end_error m : error (state (check_end m)) = error (state m).
Proof. unfold check_end. destruct (past_program m); reflexivity. Qed.

Lemma check_end_program m : program (state (check_end m)) = program (state m).
Proof. unfold check_end. destruct (past_program m); reflexivity. Qed.

Lemma check_end_halted m :
  halted (state (check_end m)) = halted (state m) || past_program m.
Proof.
  unfold check_end. destruct (past_program m) eqn:E; simpl.
  - rewrite orb_true_r. reflexivity.
  - rewrite orb_false_r. reflexivity.
Qed.

(** [step] on a machine that is not stopped. *)
Lemma step_running input m :
  stopped m = false -> step input m = check_end (highlight (execute_phase input m)).
Proof. unfold stopped, step. intros ->. reflexivity. Qed.

Lemma step_cpu input m :
  stopped m = false -> cpu (step input m) = cpu (execute_phase input m).
Proof. intros H. rewrite step_running, check_end_cpu, highlight_cpu by exact H. reflexivity. Qed.

Lemma step_memory input m :
  stopped m = false -> memory (step input m) = memory (execute_phase input m).
Proof. intros H. rewrite step_running, check_end_memory, highlight_memory by exact H. reflexivity. Qed.

Lemma step_error input m :
  stopped m = false -> error (state (step input m)) = error (state (execute_phase input m)).
Proof.
  intros H. rewrite step_running, check_end_error by exact H.
  apply (highlight_flags (execute_phase input m)).
Qed.

Lemma step_program input m : program (state (step input m)) = program (state m).
Proof.
  destruct (stopped m) eqn:H.
  - rewrite step_stopped by exact H. reflexivity.
  - rewrite step_running, check_end_program by exact H.
    destruct (highlight_flags (execute_phase input m)) as (_ & _ & -> & _).
    rewrite execute_phase_eq. cbn zeta.
    unfold execute. destruct (switch (next_opcode m)); simpl;
      repeat match goal with |- context [if ?b then _ else _] => destruct b end;
      try reflexivity;
      destruct input; simpl;
      repeat match goal with |- context [if ?b then _ else _] => destruct b end;
      reflexivity.
Qed.

(** ** C1: overflow of the accumulator *)




(** ** C2: the flags and the accumulator *)

(** C2, counterexample.  In the initial state and after every [reset], AC is
    0 and Z is false. *)
Lemma flags_wrong_after_reset :
  reachable machine0 /\ ~ flag_invariant (cpu machine0) /\
  forall m, ~ flag_invariant (cpu (reset m)).
Proof.
  split; [constructor|]. split.
  - intros [H _]. discriminate H.
  - intros m [H _]. discriminate H.
Qed.

Local Ltac case_ifs :=
  repeat match goal with
         | |- context [if ?b then _ else _] => destruct b eqn:?
         end.

Lemma execute_phase_flags input m :
  error (state (execute_phase input m)) = false ->
  flag_invariant (cpu m) \/ reset_flags (cpu m) ->
  flag_invariant (cpu (execute_phase input m)) \/ reset_flags (cpu (execute_phase input m)).
Proof.
  rewrite execute_phase_eq. cbn zeta. unfold execute, flag_invariant, reset_flags.
  intros He H.
  destruct (switch (next_opcode m)); cbn in He |- *; try exact H;
    try discriminate He;
    try (destruct input; cbn in He |- *);
    revert He; case_ifs; cbn; intros He;
    try discriminate He; try exact H; left; split; reflexivity.
Qed.

Lemma execute_phase_writes input m :
  writes_AC (switch (next_opcode m)) = true ->
  error (state (execute_phase input m)) = false ->
  flag_invariant (cpu (execute_phase input m)).
Proof.
  rewrite execute_phase_eq. cbn zeta. unfold execute, flag_invariant.
  intros Hw He.
  destruct (switch (next_opcode m)); try discriminate Hw; cbn in He |- *;
    try (destruct input; cbn in He |- *);
    revert He; case_ifs; cbn; intros He;
    try discriminate He; split; reflexivity.
Qed.

Lemma loadProgram_cpu code m : cpu (loadProgram code m) = cpu m.
Proof.
  unfold loadProgram. destruct (assembleProgram code) as [p errs].
  destruct (0 <? length errs)%nat; [|reflexivity].
  cbn. generalize m. induction errs as [|e errs IH]; intros m0; [reflexivity|].
  cbn. rewrite IH. reflexivity.
Qed.

Lemma log_errors_state (errs : list string) m :
  state (foldl (fun m _ => log error_line m) m errs) = state m /\
  memory (foldl (fun m _ => log error_line m) m errs) = memory m.
Proof.
  revert m. induction errs as [|e errs IH]; intros m; [split; reflexivity|].
  cbn. destruct (IH (log error_line m)) as [-> ->]. split; reflexivity.
Qed.

Lemma loadProgram_error code m :
  error (state (loadProgram code m)) = false -> error (state m) = false.
Proof.
  unfold loadProgram. destruct (assembleProgram code) as [p errs].
  destruct (0 <? length errs)%nat; cbn; [discriminate | tauto].
Qed.

Lemma loadExampleData_cpu_state key m :
  cpu (loadExampleData key m) = cpu m /\ state (loadExampleData key m) = state m.
Proof. unfold loadExampleData. case_ifs; split; reflexivity. Qed.

Lemma reachable_flags m :
  reachable m -> error (state m) = false ->
  flag_invariant (cpu m) \/ reset_flags (cpu m).
Proof.
  induction 1 as [|m _ _|code m _ IH|key m _ IH|input m _ IH]; intros He.
  - right. repeat split.
  - right. repeat split.
  - rewrite loadProgram_cpu. apply IH. exact (loadProgram_error _ _ He).
  - destruct (loadExampleData_cpu_state key m) as [-> Hs]. rewrite Hs in He. auto.
  - destruct (stopped m) eqn:Hs.
    + rewrite step_stopped in He |- * by exact Hs. auto.
    + rewrite step_error in He by exact Hs. rewrite step_cpu by exact Hs.
      apply execute_phase_flags; [exact He|]. apply IH.
      unfold stopped in Hs. apply orb_false_iff in Hs. tauto.
Qed.

(** C2, amended.  In every reachable state that is not Errored, either the
    flag invariant holds or AC, Z and N have the values that [reset] gives
    (0, false, false); and after every ADD, SUB, LOAD or IN that ends without
    an error the invariant holds, the flags having been evaluated again. *)
Theorem flags_follow_accumulator m :
  reachable m ->
  (error (state m) = false -> flag_invariant (cpu m) \/ reset_flags (cpu m)) /\
  (forall input,
     stopped m = false ->
     writes_AC (switch (next_opcode m)) = true ->
     error (state (step input m)) = false ->
     flag_invariant (cpu (step input m))).
Proof.
  intros Hr. split.
  - apply reachable_flags. exact Hr.
  - intros input Hs Hw He. rewrite step_error in He by exact Hs.
    rewrite step_cpu by exact Hs. apply execute_phase_writes; assumption.
Qed.

Lemma flags_follow_accumulator_witness :
  let m := loadProgram spec_program machine0 in
  reachable m /\ flag_invariant (cpu (step None m)).
Proof.
  intros m.
  assert (Hr : reachable m) by (apply reach_load, reach_init).
  split; [exact Hr|].
  apply (proj2 (flags_follow_accumulator m Hr) None); vm_compute; reflexivity.
Defined.

(** The flags are stale in the Errored state that an overflow leaves: here
    [LDA 9] loads 0 and sets Z, then [ADD 3] overflows. *)
Example stale_flags_after_overflow :
  let m := steps [None; None]
             (loadProgram (text ["LDA 9"; "ADD 3"; "HLT"; "DAT 1000"]) machine0) in
  reachable m /\ error (state m) = true /\ AC (cpu m) = Num 1000 /\ ZF (cpu m) = true.
Proof.
  cbv zeta. split.
  - cbn [steps]. do 2 apply reach_step. apply reach_load, reach_init.
  - vm_compute. repeat split; reflexivity.
Qed.

(** ** C3: the length of the memory *)

Lemma mem_write_length_lt a v mem :
  a < length mem -> length (mem_write a v mem) = length mem.
Proof.
  intros H. unfold mem_write.
  destruct (Nat.ltb_spec a (length mem)); [apply length_insert | lia].
Qed.

Lemma mem_write_length_ge a v mem : length mem <= length (mem_write a v mem).
Proof.
  unfold mem_write. destruct (Nat.ltb_spec a (length mem)).
  - rewrite length_insert. lia.
  - rewrite !length_app. lia.
Qed.

Lemma load_words_length_ge p mem : length mem <= length (load_words p mem).
Proof.
  revert mem. induction p as [|e p IH]; intros mem; cbn; [lia|].
  etransitivity; [apply (mem_write_length_ge (address e) (bytecode e))|]. apply IH.
Qed.

Lemma load_words_length p mem :
  Forall (fun e => address e < length mem) p ->
  length (load_words p mem) = length mem.
Proof.
  unfold load_words. revert mem.
  induction p as [|e p IH]; intros mem Hall; cbn [foldl]; [reflexivity|].
  inversion Hall as [|? ? He Hp]; subst.
  rewrite IH; rewrite mem_write_length_lt by exact He; [reflexivity|exact Hp].
Qed.

Lemma loadProgram_memory code m :
  memory (loadProgram code m) =
  if (0 <? length (assembleProgram code).2)%nat then memory m
  else load_words (assembleProgram code).1 (memory m).
Proof.
  unfold loadProgram. destruct (assembleProgram code) as [p errs].
  cbn [fst snd]. destruct (0 <? length errs)%nat; [|reflexivity].
  cbn [memory on_state]. apply log_errors_state.
Qed.

Lemma fill0_length mem : length (fill0 mem) = length mem.
Proof. unfold fill0. apply length_replicate. Qed.

Local Ltac length_tac :=
  first [ lia
        | rewrite fill0_length; length_tac
        | rewrite mem_write_length_lt; [length_tac | length_tac] ].

Lemma loadExampleData_length key m :
  16 <= length (memory m) ->
  length (memory (loadExampleData key m)) = length (memory m).
Proof.
  intros H. unfold loadExampleData. case_ifs; cbn [memory on_memory]; length_tac.
Qed.

Lemma execute_phase_length input m :
  100 <= length (memory m) ->
  length (memory (execute_phase input m)) = length (memory m).
Proof.
  intros H. rewrite execute_phase_eq. cbn zeta. unfold execute.
  destruct (switch (next_opcode m)) eqn:Hl; cbn;
    case_ifs; cbn; try reflexivity;
    try (destruct input; cbn; case_ifs; reflexivity).
  destruct (operand_in_range (next_instruction m)) as (z & Hz & Hb).
  { fold (next_opcode m). rewrite Hl. reflexivity. }
  fold (next_operand m) in Hz. rewrite Hz. cbn.
  destruct (Z.ltb_spec z 0); [lia|]. apply mem_write_length_lt. lia.
Qed.

Lemma step_length input m :
  100 <= length (memory m) -> length (memory (step input m)) = length (memory m).
Proof.
  intros H. destruct (stopped m) eqn:Hs.
  - rewrite step_stopped by exact Hs. reflexivity.
  - rewrite step_memory by exact Hs. apply execute_phase_length, H.
Qed.

Lemma reachable_length m : reachable m -> 256 <= length (memory m).
Proof.
  induction 1 as [|m _ IH|code m _ IH|key m _ IH|input m _ IH].
  - unfold machine0. cbn [memory]. rewrite length_replicate. lia.
  - cbn [memory reset]. rewrite fill0_length. exact IH.
  - rewrite loadProgram_memory. destruct (0 <? _)%nat; [exact IH|].
    etransitivity; [exact IH | apply load_words_length_ge].
  - rewrite loadExampleData_length; lia.
  - rewrite step_length; lia.
Qed.

(** C3, counterexample.  The memory is created with 256 words, not 100, and
    loading 257 instructions makes it 257 words long. *)
Lemma memory_is_not_100_words :
  length (memory machine0) = 256 /\ length (memory machine0) <> 100 /\
  length (memory (loadProgram (nops 257) machine0)) = 257.
Proof. vm_compute. repeat split; [discriminate]. Qed.

(** C3, amended.  The memory is created with 256 words and in every
    reachable state has at least 256; [reset], [step] and [loadExampleData]
    keep its length, and so does [loadProgram] when every entry of the
    program has its address inside the memory. *)
Theorem memory_length_kept m :
  reachable m ->
  256 <= length (memory m) /\
  length (memory (reset m)) = length (memory m) /\
  (forall input, length (memory (step input m)) = length (memory m)) /\
  (forall key, length (memory (loadExampleData key m)) = length (memory m)) /\
  (forall code,
     Forall (fun e => address e < length (memory m)) (assembleProgram code).1 ->
     length (memory (loadProgram code m)) = length (memory m)).
Proof.
  intros Hr. pose proof (reachable_length m Hr) as H.
  split; [exact H|]. split; [apply fill0_length|].
  split; [intros input; apply step_length; lia|].
  split; [intros key; apply loadExampleData_length; lia|].
  intros code Hall. rewrite loadProgram_memory.
  destruct (0 <? _)%nat; [reflexivity | apply load_words_length, Hall].
Qed.

Lemma memory_length_kept_witness :
  let m := loadProgram spec_program machine0 in
  length (memory m) = 256 /\ length (memory (step None m)) = length (memory m).
Proof.
  intros m.
  assert (Hr : reachable m) by (apply reach_load, reach_init).
  split; [vm_compute; reflexivity|].
  exact (proj1 (proj2 (proj2 (memory_length_kept m Hr))) None).
Defined.

(** ** C5: loading does not clear the memory *)

(** C5, counterexample.  A second program loaded without [reset] keeps the
    word 8 that the first one wrote at address 1. *)
Lemma stale_words_after_second_load :
  let m1 := loadProgram (text ["DAT 7"; "DAT 8"]) machine0 in
  memory (loadProgram "DAT 1" m1) !! 1 = Some (Num 8) /\
  memory (loadProgram "DAT 1" machine0) !! 1 = Some (Num 0) /\
  memory (loadProgram "DAT 1" m1) <> memory (loadProgram "DAT 1" machine0).
Proof.
  cbv zeta. split; [vm_compute; reflexivity|]. split; [vm_compute; reflexivity|].
  intros H. apply (f_equal (fun l => l !! 1)) in H. vm_compute in H. discriminate H.
Qed.

(** The data of an example, placed by [loadExampleData], are still there
    after the program is loaded. *)
Example example_data_survive_load :
  let m := loadProgram (text ["IN"; "ADD 10"; "OUT"; "HLT"])
             (loadExampleData "sum" (reset machine0)) in
  memory m !! 10 = Some (Num 5) /\ memory m !! 11 = Some (Num 3).
Proof. vm_compute. split; reflexivity. Qed.

Lemma mem_write_read_ne a b v mem :
  a <> b -> mem_read (mem_write a v mem) (Num (Z.of_nat b)) = mem_read mem (Num (Z.of_nat b)).
Proof.
  intros Hne. unfold mem_read, mem_write.
  destruct (Z.ltb_spec (Z.of_nat b) 0); [lia|]. rewrite Nat2Z.id.
  destruct (Nat.ltb_spec a (length mem)).
  - rewrite list_lookup_insert_ne by exact Hne. reflexivity.
  - destruct (Nat.lt_ge_cases b (length mem)) as [Hb|Hb].
    + rewrite lookup_app_l by exact Hb. reflexivity.
    + rewrite (lookup_ge_None_2 mem b) by exact Hb. cbn.
      rewrite lookup_app_r by exact Hb.
      destruct (Nat.lt_ge_cases (b - length mem) (a - length mem)) as [Hc|Hc].
      * rewrite lookup_app_l by (rewrite length_replicate; exact Hc).
        rewrite lookup_replicate_2 by exact Hc. reflexivity.
      * rewrite lookup_app_r by (rewrite length_replicate; exact Hc).
        rewrite length_replicate.
        destruct (b - length mem - (a - length mem)) eqn:E; [lia|reflexivity].
Qed.

Lemma load_words_frame p mem b :
  Forall (fun e => address e <> b) p ->
  mem_read (load_words p mem) (Num (Z.of_nat b)) = mem_read mem (Num (Z.of_nat b)).
Proof.
  unfold load_words. revert mem.
  induction p as [|e p IH]; intros mem Hall; cbn [foldl]; [reflexivity|].
  inversion Hall as [|? ? He Hp]; subst.
  rewrite IH by exact Hp. apply mem_write_read_ne, He.
Qed.

(** C5, amended.  [loadProgram] does not clear the memory: it writes the
    words of the program's entries and every other address reads as before.
    [reset] fills the memory with zeros, so a program loaded after [reset]
    gives the image that it gives in a new machine, the memory having its
    initial length of 256 words. *)
Theorem load_after_reset_is_fresh m code :
  length (memory m) = 256 ->
  memory (loadProgram code (reset m)) = memory (loadProgram code machine0) /\
  forall b : nat,
    Forall (fun e => address e <> b) (assembleProgram code).1 ->
    mem_read (memory (loadProgram code m)) (Num (Z.of_nat b)) =
    mem_read (memory m) (Num (Z.of_nat b)).
Proof.
  intros Hlen. split.
  - rewrite !loadProgram_memory. cbn [memory reset machine0]. unfold fill0.
    rewrite Hlen. reflexivity.
  - intros b Hall. rewrite loadProgram_memory.
    destruct (0 <? _)%nat; [reflexivity | apply load_words_frame, Hall].
Qed.

Lemma load_after_reset_is_fresh_witness :
  let m1 := loadProgram (text ["DAT 7"; "DAT 8"]) machine0 in
  memory (loadProgram "DAT 1" (reset m1)) = memory (loadProgram "DAT 1" machine0).
Proof.
  intros m1.
  assert (H : length (memory m1) = 256) by (vm_compute; reflexivity).
  exact (proj1 (load_after_reset_is_fresh m1 "DAT 1" H)).
Defined.

(** ** C4: the program counter past the program *)

(** C4, counterexample.  The three entries of this program are all loaded at
    address 0.  After one step PC is 1, past the last loaded address, and the
    machine is not Halted: 1 is below the number of entries, and the second
    step fetches the word at address 1. *)
Lemma past_last_address_not_halted :
  let m := step None (loadProgram overlaid_program machine0) in
  last_address (program (state m)) = 0 /\ length (program (state m)) = 3 /\
  PC (cpu m) = Num 1 /\ halted (state m) = false /\ error (state m) = false /\
  cycle (state (step None m)) = 2 /\ MAR (cpu (step None m)) = Num 1.
Proof. vm_compute. repeat split; reflexivity. Qed.

(** C4, amended.  After the execute phase of a step, when PC is at or above
    the number of entries of the loaded program ([state.program.length]) the
    machine is Halted and no later step does anything.  The check itself
    does not set the error flag, and when the instruction has not halted the
    machine it adds one warning line to the console. *)
Theorem past_program_halts input m :
  stopped m = false ->
  let m' := step input m in
  JS.ge (PC (cpu m')) (Num (Z.of_nat (length (program (state m'))))) = true ->
  halted (state m') = true /\
  error (state m') = error (state (execute_phase input m)) /\
  (halted (state (execute_phase input m)) = false ->
   console m' = console (execute_phase input m) ++ [warning]) /\
  forall inputs, steps inputs m' = m'.
Proof.
  intros Hs m' Hge.
  assert (Hh : halted (state m') = true).
  { subst m'. rewrite step_running in Hge |- * by exact Hs.
    rewrite check_end_halted. rewrite check_end_cpu, check_end_program in Hge.
    unfold past_program. rewrite Hge. cbn [andb].
    destruct (halted (state (highlight (execute_phase input m)))); reflexivity. }
  split; [exact Hh|]. split; [apply step_error, Hs|]. split.
  - intros Hnh. subst m'. rewrite step_running in Hge |- * by exact Hs.
    rewrite check_end_cpu, check_end_program in Hge.
    unfold check_end, past_program. rewrite Hge.
    destruct (highlight_flags (execute_phase input m)) as (-> & _).
    rewrite Hnh. cbn. rewrite highlight_console. reflexivity.
  - intros inputs. apply steps_stopped. unfold stopped. rewrite Hh. reflexivity.
Qed.

Lemma past_program_halts_witness :
  let m := loadProgram (text ["NOP"; "OUT"]) machine0 in
  let m' := step None (step None m) in
  halted (state m') = true /\ error (state m') = false /\
  steps [None; None] m' = m'.
Proof.
  intros m m'.
  assert (Hs : stopped (step None m) = false) by (vm_compute; reflexivity).
  destruct (past_program_halts None (step None m) Hs) as (Hh & He & _ & Hf).
  { vm_compute. reflexivity. }
  split; [exact Hh|]. split; [|apply Hf].
  subst m'. rewrite He. vm_compute. reflexivity.
Defined.

(** ** C7: decoding *)

(** C7, counterexample.  The word -901 decodes to opcode 9 and operand 1,
    its absolute value 901 to the instruction IN. *)
Lemma negative_in_word_decodes_differently :
  decode (Num (-901)) = (Num 9, Num 1) /\
  decode (Num (Z.abs (-901))) = (Num 901, Num 0) /\
  decode (Num (-901)) <> decode (Num (Z.abs (-901))).
Proof. repeat split; discriminate. Qed.

(** The quotient by 100 is a division of doubles, and only then is its
    floor taken.  The word 58097391366268496 is a double; its quotient
    580973913662684.96 is rounded to 580973913662685, so that [decode] gives
    the opcode 5 where the integer quotient has the digit 4.  The formula
    with the integer quotient is that of the code below 2^53 only. *)
Lemma large_word_quotient_is_rounded :
  decode (Num 58097391366268496) = (Num 5, Num 96) /\
  ((Z.abs 58097391366268496 / 100) mod 10 = 4)%Z /\
  (2 ^ 53 <= 58097391366268496)%Z.
Proof. split; [reflexivity|]. split; [reflexivity | discriminate]. Qed.

(** C7, amended.  For a word [w] below 2^53 in magnitude, [decode] gives
    opcode [w] and operand 0 when [w] is 901 or 902, and otherwise opcode
    [(|w| / 100) mod 10] and operand [|w| mod 100]; and a negative word of
    any size, other than -901 and -902, decodes as its absolute value
    does. *)
Theorem decode_formula (w : Z) :
  ((Z.abs w < 2 ^ 53)%Z ->
   decode (Num w) =
     (if bool_decide (w = 901 \/ w = 902)%Z then (Num w, Num 0)
      else (Num ((Z.abs w / 100) mod 10), Num (Z.abs w mod 100)))) /\
  ((w < 0)%Z -> Z.abs w <> 901%Z -> Z.abs w <> 902%Z ->
   decode (Num w) = decode (Num (Z.abs w))).
Proof.
  split.
  - intros Hw. rewrite decode_num by exact Hw.
    destruct (Z.eqb_spec w 901) as [->|H1]; [reflexivity|].
    destruct (Z.eqb_spec w 902) as [->|H2]; [reflexivity|].
    rewrite bool_decide_eq_false_2 by lia. cbn [orb].
    rewrite !Z.rem_mod_nonneg; try lia; [reflexivity|].
    apply Z.div_pos; lia.
  - intros Hneg H1 H2. rewrite !decode_quotient.
    destruct (Z.eqb_spec w 901) as [->|_]; [lia|].
    destruct (Z.eqb_spec w 902) as [->|_]; [lia|].
    destruct (Z.eqb_spec (Z.abs w) 901) as [E|_]; [contradiction|].
    destruct (Z.eqb_spec (Z.abs w) 902) as [E|_]; [contradiction|].
    cbn [orb]. rewrite Z.abs_idemp. reflexivity.
Qed.

Lemma decode_formula_witness :
  decode (Num (-510)) = (Num 5, Num 10) /\
  decode (Num (-510)) = decode (Num (Z.abs (-510))).
Proof.
  split.
  - rewrite (proj1 (decode_formula (-510))) by reflexivity. reflexivity.
  - apply (proj2 (decode_formula (-510))); lia.
Defined.

(** ** C6: encoding of a mnemonic line *)

Lemma assemble_line_mnemonic i raw codeOnly address program errors :
  mnemonic_line raw = Some codeOnly ->
  assemble_line i raw (address, program, errors) =
  match OPCODES !! mnemonic_of codeOnly with
  | None =>
      (address, program, errors ++ [unknown_instruction i (mnemonic_of codeOnly)])
  | Some opcode =>
      (S address,
       program ++ [Entry address (encode opcode (operand_of codeOnly)) i
                     (mnemonic_of codeOnly) (operand_of codeOnly)],
       errors)
  end.
Proof.
  unfold mnemonic_line, assemble_line. destruct (code_only raw) as [c|]; [|discriminate].
  destruct (JS.startsWith c "*"); [discriminate|].
  destruct (JS.startsWith (JS.toUpperCase c) "DAT"); [discriminate|].
  destruct (JS.is_integer_literal c); [discriminate|].
  intros [= ->]. reflexivity.
Qed.

(** What the code does with an integer operand: IN and OUT are the words 901
    and 902, every other opcode [k] gives [k * 100] plus the remainder of the
    operand that [%] computes, which has the sign of the operand. *)
Lemma encode_integer k n :
  encode k (Num n) =
  if bool_decide (k = 901 \/ k = 902)%Z then Num k else Num (k * 100 + Z.rem n 100).
Proof.
  unfold encode.
  destruct (Z.eqb_spec k 901) as [->|H1]; [reflexivity|].
  destruct (Z.eqb_spec k 902) as [->|H2]; [reflexivity|].
  rewrite bool_decide_eq_false_2 by lia. reflexivity.
Qed.

(** For an operand that is not negative this is the word of the claim. *)
Lemma encode_nonnegative k n :
  (0 <= n)%Z -> k <> 901%Z -> k <> 902%Z ->
  encode k (Num n) = Num (k * 100 + n mod 100).
Proof.
  intros Hn H1 H2. rewrite encode_integer, bool_decide_eq_false_2 by lia.
  rewrite Z.rem_mod_nonneg by lia. reflexivity.
Qed.

Example no_operand_is_zero :
  operand_of "HLT" = Num 0 /\ operand_of "ADD 99" = Num 99 /\
  assembleProgram "IN 7" = ([Entry 0 (Num 901) 0 "IN" (Num 7)], []) /\
  assembleProgram "ADD 150" = ([Entry 0 (Num 150) 0 "ADD" (Num 150)], []).
Proof. vm_compute. repeat split; reflexivity. Qed.

(** C6, the code at the failing input.  The line [ADD -5] is assembled to the
    word 95: [-5 % 100] is -5.  The word of the claim, with the operand taken
    modulo 100, is [1 * 100 + 95 = 195]; and 95 is not an ADD at all, it
    decodes to opcode 0. *)
Theorem negative_operand_word :
  assembleProgram "ADD -5" = ([Entry 0 (Num 95) 0 "ADD" (Num (-5))], []) /\
  encode 1 (Num (-5)) = Num 95 /\
  Num (1 * 100 + (-5) mod 100) = Num 195 /\
  decode (Num 95) = (Num 0, Num 95).
Proof. vm_compute. repeat split; reflexivity. Qed.

(** ** The loop of the assembler *)

Lemma assemble_loop_app i xs ys st :
  assemble_loop i (xs ++ ys) st = assemble_loop (i + length xs) ys (assemble_loop i xs st).
Proof.
  revert i st. induction xs as [|x xs IH]; intros i st; cbn.
  - rewrite Nat.add_0_r. reflexivity.
  - rewrite IH. f_equal. lia.
Qed.

(** What a line does depends on the current address only: it appends to
    [program] and to [errors]. *)
Lemma assemble_line_appends i raw a p e :
  assemble_line i raw (a, p, e) =
  let r := assemble_line i raw (a, [], []) in (r.1.1, p ++ r.1.2, e ++ r.2).
Proof.
  unfold assemble_line. cbn zeta.
  destruct (code_only raw) as [c|]; [|cbn; rewrite !app_nil_r; reflexivity].
  case_ifs; cbn; rewrite ?app_nil_r; try reflexivity.
  destruct (OPCODES !! mnemonic_of c); cbn; rewrite ?app_nil_r; reflexivity.
Qed.

Lemma assemble_loop_appends i ls a p e :
  assemble_loop i ls (a, p, e) =
  let r := assemble_loop i ls (a, [], []) in (r.1.1, p ++ r.1.2, e ++ r.2).
Proof.
  revert i a p e. induction ls as [|raw ls IH]; intros i a p e; cbn [assemble_loop].
  - cbn. rewrite !app_nil_r. reflexivity.
  - rewrite (assemble_line_appends i raw a p e). cbn zeta.
    destruct (assemble_line i raw (a, [], [])) as [[a1 p1] e1]. cbn [fst snd].
    rewrite (IH (S i) a1 (p ++ p1) (e ++ e1)), (IH (S i) a1 p1 e1). cbn zeta.
    destruct (assemble_loop (S i) ls (a1, [], [])) as [[a2 p2] e2]. cbn [fst snd].
    rewrite !app_assoc. reflexivity.
Qed.

Lemma assemble_line_blank i st : assemble_line i "" st = st.
Proof. destruct st as [[a p] e]. reflexivity. Qed.

Lemma assemble_line_errors i raw a :
  Forall (error_of_line i (S i)) (assemble_line i raw (a, [], [])).2.
Proof.
  unfold assemble_line.
  destruct (code_only raw) as [c|]; [|constructor].
  case_ifs; cbn; try constructor.
  destruct (OPCODES !! mnemonic_of c); cbn; constructor; [|constructor].
  exists i, (mnemonic_of c). split; [lia | reflexivity].
Qed.

Lemma error_of_line_mono lo hi lo' hi' msg :
  lo' <= lo -> hi <= hi' -> error_of_line lo hi msg -> error_of_line lo' hi' msg.
Proof. intros ? ? (j & instr & ? & ->). exists j, instr. split; [lia | reflexivity]. Qed.

Lemma assemble_loop_errors i ls a :
  Forall (error_of_line i (i + length ls)) (assemble_loop i ls (a, [], [])).2.
Proof.
  revert i a. induction ls as [|raw ls IH]; intros i a; cbn [assemble_loop].
  - constructor.
  - pose proof (assemble_line_errors i raw a) as H1.
    destruct (assemble_line i raw (a, [], [])) as [[a1 p1] e1]. cbn [snd] in H1.
    rewrite assemble_loop_appends. cbn zeta. cbn [snd].
    apply Forall_app. split.
    + eapply Forall_impl; [exact H1|]. intros msg. apply error_of_line_mono; cbn; lia.
    + eapply Forall_impl; [apply IH|]. intros msg. apply error_of_line_mono; cbn; lia.
Qed.

(** ** Line numbers in the messages *)

Lemma all_digits_of_uint d : JS.all_digits (NilEmpty.string_of_uint d) = true.
Proof. induction d; cbn; try reflexivity; exact IHd. Qed.

Lemma of_nat_inj a b : JS.of_nat a = JS.of_nat b -> a = b.
Proof.
  unfold JS.of_nat. intros H. apply DecimalNat.Unsigned.to_uint_inj.
  apply (f_equal NilEmpty.uint_of_string) in H. rewrite !NilEmpty.usu in H.
  congruence.
Qed.

Lemma digit_not_colon c : JS.is_digit c = true -> Ascii.eqb c ":" = false.
Proof.
  intros H. destruct (Ascii.eqb_spec c ":") as [->|]; [discriminate H | reflexivity].
Qed.

Lemma append_nil s : "" +:+ s = s.
Proof. reflexivity. Qed.

Lemma append_cons c s t : String c s +:+ t = String c (s +:+ t).
Proof. reflexivity. Qed.

Lemma startsWith_number x y rest :
  JS.all_digits x = true -> JS.all_digits y = true ->
  JS.startsWith (x +:+ String ":" rest) (y +:+ ":") = true -> x = y.
Proof.
  revert y. induction x as [|c x IH]; intros [|d y] Hx Hy H;
    rewrite ?append_nil, ?append_cons in H;
    cbn [JS.startsWith JS.all_digits] in *.
  - reflexivity.
  - apply andb_true_iff in Hy as [Hd _]. apply digit_not_colon in Hd.
    rewrite Hd in H. discriminate H.
  - apply andb_true_iff in Hx as [Hc _]. apply digit_not_colon in Hc.
    rewrite Ascii.eqb_sym, Hc in H. discriminate H.
  - apply andb_true_iff in Hx as [_ Hx]. apply andb_true_iff in Hy as [_ Hy].
    apply andb_true_iff in H as [Hcd H].
    apply Ascii.eqb_eq in Hcd. subst d. f_equal. exact (IH y Hx Hy H).
Qed.

Lemma startsWith_same_prefix p a b :
  JS.startsWith (p +:+ a) (p +:+ b) = JS.startsWith a b.
Proof.
  induction p as [|c p IH]; [reflexivity|].
  rewrite !append_cons. cbn [JS.startsWith]. rewrite Ascii.eqb_refl. exact IH.
Qed.

Lemma mentions_line_unknown n j instr :
  mentions_line n (unknown_instruction j instr) = true <-> n = j + 1.
Proof.
  unfold mentions_line, unknown_instruction.
  rewrite startsWith_same_prefix.
  set (rest := " Unknown instruction '" +:+ instr +:+ "'").
  change (": Unknown instruction '" +:+ instr +:+ "'") with (String ":" rest).
  split.
  - intros H. symmetry. apply of_nat_inj.
    apply (startsWith_number _ _ rest); [apply all_digits_of_uint .. | exact H].
  - intros ->. rewrite startsWith_same_prefix. reflexivity.
Qed.

Lemma assemble_lines_eq ls :
  assemble_lines ls =
  ((assemble_loop 0 ls (0, [], [])).1.2, (assemble_loop 0 ls (0, [], [])).2).
Proof. unfold assemble_lines. destruct (assemble_loop _ _ _) as [[a p] e]. reflexivity. Qed.

Lemma filter_none {A} (f : A -> bool) l :
  Forall (fun x => f x = false) l -> List.filter f l = [].
Proof.
  induction 1 as [|x l Hx _ IH]; cbn; [reflexivity|]. rewrite Hx. exact IH.
Qed.

Lemma other_lines_not_mentioned n lo hi errs :
  Forall (error_of_line lo hi) errs -> (n <= lo \/ hi < n) ->
  List.filter (mentions_line n) errs = [].
Proof.
  intros Hall Hn. apply filter_none. eapply Forall_impl; [exact Hall|].
  intros msg (j & instr & Hj & ->).
  destruct (mentions_line n (unknown_instruction j instr)) eqn:E; [|reflexivity].
  apply mentions_line_unknown in E. lia.
Qed.

(** ** C9: a line with an unknown mnemonic *)

Lemma assemble_line_unknown i raw a p e :
  unknown_mnemonic raw = true ->
  assemble_line i raw (a, p, e) = (a, p, e ++ [unknown_instruction i (mnemonic_at raw)]).
Proof.
  unfold unknown_mnemonic, mnemonic_at. intros H.
  destruct (mnemonic_line raw) as [c|] eqn:Hc; [|discriminate H].
  apply bool_decide_eq_true in H.
  rewrite (assemble_line_mnemonic i raw c a p e Hc), H. reflexivity.
Qed.

(** The lines that the amended statement is about are lines with an unknown
    mnemonic in the words of the specification. *)
Lemma unknown_mnemonic_first_word raw :
  unknown_mnemonic raw = true -> first_word_unknown raw = true.
Proof.
  unfold unknown_mnemonic, mnemonic_line, first_word_unknown.
  destruct (code_only raw) as [c|]; [|discriminate].
  case_ifs; try discriminate. intros H. exact H.
Qed.

(** An error is appended by these lines only: any other line leaves the
    list of errors as it is. *)
Lemma no_error_elsewhere i raw a p e :
  unknown_mnemonic raw = false -> (assemble_line i raw (a, p, e)).2 = e.
Proof.
  unfold unknown_mnemonic, mnemonic_line, assemble_line.
  destruct (code_only raw) as [c|]; [|reflexivity].
  case_ifs; try reflexivity. intros H.
  destruct (OPCODES !! mnemonic_of c) eqn:E; [reflexivity|].
  rewrite bool_decide_eq_true_2 in H by reflexivity. discriminate H.
Qed.

(** C9, counterexample.  The first word of the line [DATABASE 5] is not a
    mnemonic of the table, but the line begins with DAT: the test of line
    1856 takes it, [parseInt] of [ABASE 5] is NaN, and the loop goes on
    without an error.  The text assembles without any error, as it does when
    the line is blank.  The line [DAT5] is not an error either: it gives the
    word 5 and takes an address. *)
Lemma misspelled_dat_line_without_error :
  first_word_unknown "DATABASE 5" = true /\
  (assembleProgram (text ["LDA 10"; "DATABASE 5"; "HLT"])).2 = [] /\
  assembleProgram (text ["LDA 10"; "DATABASE 5"; "HLT"]) =
    assemble_lines ["LDA 10"; ""; "HLT"] /\
  first_word_unknown "DAT5" = true /\
  assembleProgram "DAT5" = ([Entry 0 (Num 5) 0 "DAT" (Num 5)], []).
Proof. vm_compute. repeat split; reflexivity. Qed.

(** C9, amended.  A line has an unknown mnemonic when it comes to the table
    of mnemonics (it is not blank, not a comment, not an address directive,
    does not begin with DAT and is not a bare integer) and its first word is
    not there.  When the text has such a line, that line adds one error,
    which names the line by its number counted from 1, and leaves the
    address and the program as they are; the result has exactly one error
    naming that line; the program is the one assembled when the line is
    blank, and the other errors are those of that assembly, in the same
    order. *)
Theorem unknown_mnemonic_one_error code before raw after :
  JS.split_char "010" code = before ++ raw :: after ->
  unknown_mnemonic raw = true ->
  let i := length before in
  let msg := unknown_instruction i (mnemonic_at raw) in
  let st := assemble_loop 0 before (0, [], []) in
  assemble_line i raw st = (st.1.1, st.1.2, st.2 ++ [msg]) /\
  mentions_line (i + 1) msg = true /\
  length (List.filter (mentions_line (i + 1)) (assembleProgram code).2) = 1 /\
  (assembleProgram code).1 = (assemble_lines (before ++ "" :: after)).1 /\
  exists later,
    (assembleProgram code).2 = st.2 ++ msg :: later /\
    (assemble_lines (before ++ "" :: after)).2 = st.2 ++ later.
Proof.
  intros Hsplit Hunk i msg st.
  pose proof (assemble_loop_errors 0 before 0) as Hbefore. fold st in Hbefore.
  assert (Hline : assemble_line i raw st = (st.1.1, st.1.2, st.2 ++ [msg])).
  { destruct st as [[a p] e]. apply assemble_line_unknown, Hunk. }
  assert (Hmsg : mentions_line (i + 1) msg = true)
    by (apply mentions_line_unknown; reflexivity).
  unfold assembleProgram. rewrite Hsplit, !assemble_lines_eq. cbn [fst snd].
  rewrite !assemble_loop_app. cbn [assemble_loop Nat.add]. fold i st.
  rewrite Hline, assemble_line_blank.
  destruct st as [[a p] e]. cbn [fst snd] in *.
  rewrite (assemble_loop_appends (S i) after a p (e ++ [msg])).
  rewrite (assemble_loop_appends (S i) after a p e). cbn zeta.
  pose proof (assemble_loop_errors (S i) after a) as Hafter.
  destruct (assemble_loop (S i) after (a, [], [])) as [[a2 p2] e2].
  cbn [fst snd] in *.
  split; [reflexivity|]. split; [exact Hmsg|]. split; [|split].
  - rewrite !List.filter_app.
    rewrite (other_lines_not_mentioned (i + 1) 0 (0 + i) e) by (exact Hbefore || lia).
    rewrite (other_lines_not_mentioned (i + 1) (S i) (S i + length after) e2)
      by (exact Hafter || lia).
    cbn [List.filter]. rewrite Hmsg. reflexivity.
  - reflexivity.
  - exists e2. split; [|reflexivity]. rewrite <- app_assoc. reflexivity.
Qed.

Lemma unknown_mnemonic_one_error_witness :
  let code := text ["LDA 10"; "FOO 5"; "HLT"] in
  length (List.filter (mentions_line 2) (assembleProgram code).2) = 1 /\
  (assembleProgram code).1 = (assemble_lines ["LDA 10"; ""; "HLT"]).1.
Proof.
  intros code.
  assert (H1 : JS.split_char "010" code = ["LDA 10"] ++ "FOO 5" :: ["HLT"])
    by (vm_compute; reflexivity).
  assert (H2 : unknown_mnemonic "FOO 5" = true) by (vm_compute; reflexivity).
  destruct (unknown_mnemonic_one_error code ["LDA 10"] "FOO 5" ["HLT"] H1 H2)
    as (_ & _ & Hc & Hp & _).
  split; [exact Hc | exact Hp].
Defined.

(** ** C10: lines that begin with DAT *)

Lemma dat_is_not_directive c :
  JS.startsWith (JS.toUpperCase c) "DAT" = true -> JS.startsWith c "*" = false.
Proof.
  destruct c as [|x c]; [discriminate|]. cbn [JS.toUpperCase JS.startsWith].
  intros H. destruct (Ascii.eqb_spec "*" x) as [<-|]; [|reflexivity].
  vm_compute in H. discriminate H.
Qed.

Lemma assemble_line_dat i raw c a p e :
  dat_line raw = Some c ->
  assemble_line i raw (a, p, e) =
  if negb (JS.isNaN (dat_value c))
  then (S a, p ++ [Entry a (dat_value c) i "DAT" (dat_value c)], e)
  else (a, p, e).
Proof.
  unfold dat_line, assemble_line, dat_value.
  destruct (code_only raw) as [c'|]; [|discriminate].
  destruct (JS.startsWith (JS.toUpperCase c') "DAT") eqn:Hd; [|discriminate].
  intros [= ->]. rewrite (dat_is_not_directive c Hd). reflexivity.
Qed.

(** C10.  A line whose text begins with DAT, in any case of the letters, is a
    data line: it never adds an error.  When the rest of the line gives no
    integer the line changes nothing (no entry, no error, same address), and
    the text assembles as if the line were blank; when it gives one, an entry
    DAT with that value is added at the current address. *)
Theorem dat_line_never_error i raw codeOnly a p e :
  dat_line raw = Some codeOnly ->
  (assemble_line i raw (a, p, e)).2 = e /\
  (JS.isNaN (dat_value codeOnly) = true ->
   assemble_line i raw (a, p, e) = (a, p, e) /\
   forall before after,
     assemble_lines (before ++ raw :: after) = assemble_lines (before ++ "" :: after)) /\
  (JS.isNaN (dat_value codeOnly) = false ->
   assemble_line i raw (a, p, e) =
   (S a, p ++ [Entry a (dat_value codeOnly) i "DAT" (dat_value codeOnly)], e)).
Proof.
  intros Hd.
  assert (Hl : forall j st, JS.isNaN (dat_value codeOnly) = true ->
                            assemble_line j raw st = st).
  { intros j [[a' p'] e'] Hn. rewrite (assemble_line_dat j raw codeOnly a' p' e' Hd), Hn.
    reflexivity. }
  rewrite (assemble_line_dat i raw codeOnly a p e Hd).
  split; [destruct (JS.isNaN _); reflexivity|]. split.
  - intros Hn. rewrite Hn. split; [reflexivity|].
    intros before after. rewrite !assemble_lines_eq, !assemble_loop_app.
    cbn [assemble_loop]. rewrite (Hl _ _ Hn), assemble_line_blank. reflexivity.
  - intros ->. reflexivity.
Qed.

Lemma dat_line_never_error_witness :
  assemble_line 1 "DATABASE 5" (4, [], []) = (4, [], []) /\
  assemble_lines ["LDA 10"; "DATABASE 5"; "HLT"] = assemble_lines ["LDA 10"; ""; "HLT"].
Proof.
  assert (Hd : dat_line "DATABASE 5" = Some "DATABASE 5") by (vm_compute; reflexivity).
  assert (Hn : JS.isNaN (dat_value "DATABASE 5") = true) by (vm_compute; reflexivity).
  destruct (dat_line_never_error 1 "DATABASE 5" "DATABASE 5" 4 [] [] Hd) as (_ & H & _).
  destruct (H Hn) as [H1 H2]. split; [exact H1 | exact (H2 ["LDA 10"] ["HLT"])].
Defined.

Example dat_lines :
  assembleProgram (text ["dat 7"; "DAT5"; "DATA 5"; "DAT -12x"; "DAT"]) =
  ([Entry 0 (Num 7) 0 "DAT" (Num 7); Entry 1 (Num 5) 1 "DAT" (Num 5);
    Entry 2 (Num (-12)) 3 "DAT" (Num (-12))], []).
Proof. vm_compute. reflexivity. Qed.

(** ** C8: programs without branch instructions *)




Lemma execute_phase_PC input m :
  is_branch (switch (next_opcode m)) = false ->
  PC (cpu (execute_phase input m)) = JS.add (PC (cpu m)) (Num 1).
Proof.
  rewrite execute_phase_eq. cbn zeta. unfold execute. intros Hb.
  destruct (switch (next_opcode m)); try discriminate Hb; cbn;
    case_ifs; cbn; try reflexivity;
    destruct input; cbn; case_ifs; reflexivity.
Qed.







(** * Further properties of the code *)

(** ** The assembler does not look at the case of letters *)

Local Ltac all_chars c := destruct c as [[] [] [] [] [] [] [] []]; reflexivity.

Lemma upper_char_space c : JS.is_space (JS.upper_char c) = JS.is_space c.
Proof. all_chars c. Qed.

Lemma upper_char_digit c : JS.is_digit (JS.upper_char c) = JS.is_digit c.
Proof. all_chars c. Qed.

Lemma upper_char_digit_code c :
  JS.is_digit c = true -> JS.upper_char c = c.
Proof. destruct c as [[] [] [] [] [] [] [] []]; intros H; try discriminate H; reflexivity. Qed.

Lemma upper_char_idem c : JS.upper_char (JS.upper_char c) = JS.upper_char c.
Proof. all_chars c. Qed.

Lemma upper_char_slash c : Ascii.eqb "/" (JS.upper_char c) = Ascii.eqb "/" c.
Proof. all_chars c. Qed.

Lemma upper_char_semicolon c : Ascii.eqb ";" (JS.upper_char c) = Ascii.eqb ";" c.
Proof. all_chars c. Qed.

Lemma upper_char_star c : Ascii.eqb "*" (JS.upper_char c) = Ascii.eqb "*" c.
Proof. all_chars c. Qed.

Lemma upper_char_newline c : Ascii.eqb (JS.upper_char c) "010" = Ascii.eqb c "010".
Proof. all_chars c. Qed.

Lemma upper_char_sign c :
  (JS.upper_char c = "-"%char <-> c = "-"%char) /\
  (JS.upper_char c = "+"%char <-> c = "+"%char).
Proof.
  destruct c as [[] [] [] [] [] [] [] []]; cbv; split; split; intros H;
    first [reflexivity | discriminate H].
Qed.

Lemma toUpperCase_idem s : JS.toUpperCase (JS.toUpperCase s) = JS.toUpperCase s.
Proof. induction s as [|c s IH]; cbn; [reflexivity|]. rewrite upper_char_idem, IH. reflexivity. Qed.

Lemma toUpperCase_empty s : JS.is_empty (JS.toUpperCase s) = JS.is_empty s.
Proof. destruct s; reflexivity. Qed.

Lemma toUpperCase_trimStart s :
  JS.trimStart (JS.toUpperCase s) = JS.toUpperCase (JS.trimStart s).
Proof.
  induction s as [|c s IH]; cbn; [reflexivity|].
  rewrite upper_char_space. destruct (JS.is_space c); [exact IH | reflexivity].
Qed.

Lemma toUpperCase_trimEnd s :
  JS.trimEnd (JS.toUpperCase s) = JS.toUpperCase (JS.trimEnd s).
Proof.
  induction s as [|c s IH]; cbn; [reflexivity|].
  rewrite upper_char_space, IH, toUpperCase_empty.
  destruct (JS.is_space c && JS.is_empty (JS.trimEnd s)); reflexivity.
Qed.

Lemma toUpperCase_trim s : JS.trim (JS.toUpperCase s) = JS.toUpperCase (JS.trim s).
Proof. unfold JS.trim. rewrite toUpperCase_trimStart, toUpperCase_trimEnd. reflexivity. Qed.

Lemma toUpperCase_substring n s :
  JS.substring n (JS.toUpperCase s) = JS.toUpperCase (JS.substring n s).
Proof.
  revert s. induction n as [|n IH]; intros s; [reflexivity|].
  destruct s as [|c s]; cbn; [reflexivity | apply IH].
Qed.

Lemma startsWith_nil s : JS.startsWith s "" = true.
Proof. destruct s; reflexivity. Qed.

Lemma startsWith_upper_slashes s :
  JS.startsWith (JS.toUpperCase s) "//" = JS.startsWith s "//".
Proof.
  destruct s as [|c [|d s]]; cbn [JS.startsWith JS.toUpperCase];
    rewrite ?upper_char_slash, ?startsWith_nil; reflexivity.
Qed.

Lemma startsWith_upper_semicolon s :
  JS.startsWith (JS.toUpperCase s) ";" = JS.startsWith s ";".
Proof.
  destruct s as [|c s]; cbn [JS.startsWith JS.toUpperCase];
    rewrite ?upper_char_semicolon, ?startsWith_nil; reflexivity.
Qed.

Lemma startsWith_upper_star s :
  JS.startsWith (JS.toUpperCase s) "*" = JS.startsWith s "*".
Proof.
  destruct s as [|c s]; cbn [JS.startsWith JS.toUpperCase];
    rewrite ?upper_char_star, ?startsWith_nil; reflexivity.
Qed.

Lemma split_head_upper_slashes s :
  JS.split_head "//" (JS.toUpperCase s) = JS.toUpperCase (JS.split_head "//" s).
Proof.
  induction s as [|c s IH]; [reflexivity|].
  change (JS.toUpperCase (String c s)) with (String (JS.upper_char c) (JS.toUpperCase s)).
  cbn [JS.split_head].
  change (String (JS.upper_char c) (JS.toUpperCase s)) with (JS.toUpperCase (String c s)).
  rewrite startsWith_upper_slashes.
  destruct (JS.startsWith (String c s) "//"); [reflexivity|].
  cbn [JS.toUpperCase]. rewrite IH. reflexivity.
Qed.

Lemma split_head_upper_semicolon s :
  JS.split_head ";" (JS.toUpperCase s) = JS.toUpperCase (JS.split_head ";" s).
Proof.
  induction s as [|c s IH]; [reflexivity|].
  change (JS.toUpperCase (String c s)) with (String (JS.upper_char c) (JS.toUpperCase s)).
  cbn [JS.split_head].
  change (String (JS.upper_char c) (JS.toUpperCase s)) with (JS.toUpperCase (String c s)).
  rewrite startsWith_upper_semicolon.
  destruct (JS.startsWith (String c s) ";"); [reflexivity|].
  cbn [JS.toUpperCase]. rewrite IH. reflexivity.
Qed.

Lemma code_only_upper raw :
  code_only (JS.toUpperCase raw) = JS.toUpperCase <$> code_only raw.
Proof.
  unfold code_only. cbn zeta.
  rewrite toUpperCase_trim, toUpperCase_empty, startsWith_upper_slashes,
    startsWith_upper_semicolon.
  destruct (JS.is_empty (JS.trim raw) || _ || _); [reflexivity|].
  rewrite split_head_upper_slashes, toUpperCase_trim, toUpperCase_empty.
  destruct (JS.is_empty (JS.trim (JS.split_head "//" (JS.trim raw)))); [reflexivity|].
  rewrite split_head_upper_semicolon, toUpperCase_trim, toUpperCase_empty.
  destruct (JS.is_empty _); reflexivity.
Qed.

Lemma parse_digits_upper acc s :
  JS.parse_digits acc (JS.toUpperCase s) = JS.parse_digits acc s.
Proof.
  revert acc. induction s as [|c s IH]; intros acc; cbn; [reflexivity|].
  rewrite upper_char_digit. destruct (JS.is_digit c) eqn:Hd; [|reflexivity].
  rewrite (upper_char_digit_code c Hd). apply IH.
Qed.

Lemma parseInt_upper s : JS.parseInt (JS.toUpperCase s) = JS.parseInt s.
Proof.
  unfold JS.parseInt. rewrite toUpperCase_trimStart.
  destruct (JS.trimStart s) as [|c t]; [reflexivity|].
  cbn [JS.toUpperCase].
  destruct (upper_char_sign c) as [Hm Hp].
  destruct (ascii_dec c "-") as [->|Hnm].
  { change (JS.upper_char "-") with "-"%char. cbn iota.
    rewrite parse_digits_upper. reflexivity. }
  destruct (ascii_dec c "+") as [->|Hnp].
  { change (JS.upper_char "+") with "+"%char. cbn iota.
    rewrite parse_digits_upper. reflexivity. }
  assert (Hu1 : JS.upper_char c <> "-"%char) by (intros E; apply Hnm, Hm, E).
  assert (Hu2 : JS.upper_char c <> "+"%char) by (intros E; apply Hnp, Hp, E).
  assert (Hgen : forall (x : ascii) (r : string), x <> "-"%char -> x <> "+"%char ->
            (match String x r with
             | String "-" r' => ((-1)%Z, r')
             | String "+" r' => (1%Z, r')
             | _ => (1%Z, String x r)
             end) = (1%Z, String x r)).
  { intros x r H1 H2.
    destruct x as [[] [] [] [] [] [] [] []]; try reflexivity; congruence. }
  rewrite (Hgen _ _ Hu1 Hu2), (Hgen _ _ Hnm Hnp).
  change (String (JS.upper_char c) (JS.toUpperCase t)) with (JS.toUpperCase (String c t)).
  rewrite parse_digits_upper. reflexivity.
Qed.

Lemma all_digits_upper s : JS.all_digits (JS.toUpperCase s) = JS.all_digits s.
Proof.
  induction s as [|c s IH]; cbn; [reflexivity|]. rewrite upper_char_digit, IH. reflexivity.
Qed.

Lemma digits1_upper s : JS.digits1 (JS.toUpperCase s) = JS.digits1 s.
Proof. unfold JS.digits1. rewrite toUpperCase_empty, all_digits_upper. reflexivity. Qed.

Lemma is_integer_literal_upper s :
  JS.is_integer_literal (JS.toUpperCase s) = JS.is_integer_literal s.
Proof.
  destruct s as [|c t]; [reflexivity|].
  assert (Hgen : forall (x : ascii) (r : string), x <> "-"%char ->
            JS.is_integer_literal (String x r) = JS.digits1 (String x r)).
  { intros x r H1. destruct x as [[] [] [] [] [] [] [] []]; try reflexivity; congruence. }
  destruct (upper_char_sign c) as [Hm _].
  destruct (ascii_dec c "-") as [->|Hnm].
  - cbn [JS.toUpperCase]. change (JS.upper_char "-") with "-"%char.
    cbn [JS.is_integer_literal]. apply digits1_upper.
  - cbn [JS.toUpperCase]. rewrite !Hgen by (try assumption; intros E; apply Hnm, Hm, E).
    apply (digits1_upper (String c t)).
Qed.

Lemma split_spaces_go_upper b s :
  JS.split_spaces_go b (JS.toUpperCase s) = JS.toUpperCase <$> JS.split_spaces_go b s.
Proof.
  revert b. induction s as [|c s IH]; intros b; cbn; [reflexivity|].
  rewrite upper_char_space. destruct (JS.is_space c).
  - destruct b; rewrite IH; reflexivity.
  - rewrite IH. destruct (JS.split_spaces_go false s); reflexivity.
Qed.

Lemma split_char_newline_upper s :
  JS.split_char "010" (JS.toUpperCase s) = JS.toUpperCase <$> JS.split_char "010" s.
Proof.
  induction s as [|c s IH]; cbn [JS.toUpperCase JS.split_char]; [reflexivity|].
  rewrite upper_char_newline, IH. destruct (Ascii.eqb c "010"); [reflexivity|].
  destruct (JS.split_char "010" s); reflexivity.
Qed.

Lemma mnemonic_of_upper c : mnemonic_of (JS.toUpperCase c) = mnemonic_of c.
Proof.
  unfold mnemonic_of, JS.split_spaces. rewrite split_spaces_go_upper, list_lookup_fmap.
  destruct (JS.split_spaces_go false c !! 0); cbn; [apply toUpperCase_idem | reflexivity].
Qed.

Lemma operand_of_upper c : operand_of (JS.toUpperCase c) = operand_of c.
Proof.
  unfold operand_of, JS.split_spaces. rewrite split_spaces_go_upper, list_lookup_fmap.
  destruct (JS.split_spaces_go false c !! 1); cbn; [|reflexivity].
  rewrite toUpperCase_empty, parseInt_upper. reflexivity.
Qed.

Lemma assemble_line_upper i raw st :
  assemble_line i (JS.toUpperCase raw) st = assemble_line i raw st.
Proof.
  unfold assemble_line. destruct st as [[a p] e]. rewrite code_only_upper.
  destruct (code_only raw) as [c|]; cbn [fmap option_fmap option_map]; [|reflexivity].
  rewrite startsWith_upper_star, toUpperCase_substring, parseInt_upper.
  rewrite toUpperCase_idem, toUpperCase_substring, toUpperCase_trim, parseInt_upper.
  rewrite is_integer_literal_upper, parseInt_upper, mnemonic_of_upper, operand_of_upper.
  reflexivity.
Qed.

Lemma assemble_loop_upper i ls st :
  assemble_loop i (JS.toUpperCase <$> ls) st = assemble_loop i ls st.
Proof.
  revert i st. induction ls as [|raw ls IH]; intros i st; cbn; [reflexivity|].
  rewrite assemble_line_upper. apply IH.
Qed.

(** X1.  The result of the assembler does not depend on the case of the
    letters of the text: mnemonics, the DAT directive and the words of
    comments may be written in either case. *)
Theorem assembleProgram_ignores_case code :
  assembleProgram (JS.toUpperCase code) = assembleProgram code.
Proof.
  unfold assembleProgram, assemble_lines.
  rewrite split_char_newline_upper, assemble_loop_upper. reflexivity.
Qed.

(** ** Shape of the assembled program *)

Lemma accepted_address v :
  negb (JS.isNaN v) && JS.ge v (Num 0) && JS.le v (Num 99) = true -> index_of v <= 99.
Proof.
  destruct v as [z| |]; cbn; try discriminate.
  intros H. apply andb_true_iff in H as [H1 H2].
  apply Z.leb_le in H1, H2. lia.
Qed.

(** What one line does to the three variables of the loop. *)
Lemma assemble_line_shape i raw a :
  let r := assemble_line i raw (a, [], []) in
  (r.1.2 = [] /\ r.2 = [] /\ (r.1.1 = a \/ r.1.1 <= 99)) \/
  (exists v s o, r = (S a, [Entry a v i s o], [])) \/
  (exists msg, r = (a, [], [msg])).
Proof.
  unfold assemble_line. destruct (code_only raw) as [c|]; [|left; cbn; tauto].
  destruct (JS.startsWith c "*").
  { destruct (negb _ && _ && _) eqn:E; left; cbn; [|tauto].
    repeat split. right. apply accepted_address, E. }
  destruct (JS.startsWith (JS.toUpperCase c) "DAT").
  { destruct (negb _); [right; left; cbn; eauto | left; cbn; tauto]. }
  destruct (JS.is_integer_literal c); [right; left; cbn; eauto|].
  destruct (OPCODES !! mnemonic_of c); [right; left | right; right]; cbn; eauto.
Qed.

Lemma assemble_loop_shape ls : forall i a,
  a <= 99 + i ->
  let r := assemble_loop i ls (a, [], []) in
  r.1.1 <= 99 + i + length ls /\
  Forall (fun e => i <= line e < i + length ls /\ address e <= 99 + line e) r.1.2 /\
  StronglySorted line_order r.1.2 /\
  length r.1.2 + length r.2 <= length ls.
Proof.
  induction ls as [|raw ls IH]; intros i a Ha; cbn [assemble_loop length].
  - cbn. repeat split; [lia | constructor | constructor | lia].
  - pose proof (assemble_line_shape i raw a) as Hs. cbn zeta in Hs.
    destruct (assemble_line i raw (a, [], [])) as [[a1 p1] e1]. cbn [fst snd] in Hs.
    rewrite assemble_loop_appends. cbn zeta.
    assert (Ha1 : a1 <= 99 + S i).
    { destruct Hs as [(_ & _ & [->| H])|[(v & s & o & [= -> _ _])|(msg & [= -> _ _])]]; lia. }
    specialize (IH (S i) a1 Ha1). cbn zeta in IH.
    destruct (assemble_loop (S i) ls (a1, [], [])) as [[a2 p2] e2].
    cbn [fst snd] in IH |- *. destruct IH as (Hb & Hall & Hsort & Hlen).
    assert (Hall' : Forall (fun e => i <= line e < i + S (length ls) /\
                                     address e <= 99 + line e) p2).
    { eapply Forall_impl; [exact Hall|]. cbn. intros e [? ?]. split; lia. }
    split; [lia|].
    destruct Hs as [(-> & -> & _)|[(v & s & o & [= _ -> ->])|(msg & [= _ -> ->])]];
      cbn [app length].
    + repeat split; [exact Hall' | exact Hsort | lia].
    + split; [|split].
      * constructor; [cbn; lia | exact Hall'].
      * constructor; [exact Hsort|].
        eapply Forall_impl; [exact Hall|]. unfold line_order. cbn. intros e [? ?]. lia.
      * lia.
    + repeat split; [exact Hall' | exact Hsort | lia].
Qed.

(** X2.  Every entry of the assembled program comes from a line of the
    text and has an address of at most 99 plus the index of that line; the
    entries are in the order of their lines; and each line gives at most one
    entry or one error. *)
Theorem assembled_program_shape code :
  let lines := JS.split_char "010" code in
  let program := (assembleProgram code).1 in
  let errors := (assembleProgram code).2 in
  Forall (fun e => line e < length lines /\ address e <= 99 + line e) program /\
  StronglySorted line_order program /\
  length program + length errors <= length lines.
Proof.
  cbv zeta. unfold assembleProgram. rewrite assemble_lines_eq. cbn [fst snd].
  destruct (assemble_loop_shape (JS.split_char "010" code) 0 0) as (_ & Hall & Hs & Hl); [lia|].
  split; [|split; assumption].
  eapply Forall_impl; [exact Hall|]. cbn. intros e [? ?]. split; lia.
Qed.

(** ** Texts without address directives *)

Lemma assemble_line_no_directive i raw a :
  no_directive raw = true ->
  let r := assemble_line i raw (a, [], []) in
  r.1.1 = a + length r.1.2 /\ length r.1.2 <= 1 /\
  Forall (fun e => address e = a) r.1.2.
Proof.
  unfold no_directive, assemble_line. destruct (code_only raw) as [c|]; [|cbn; auto].
  intros H. apply negb_true_iff in H. rewrite H. case_ifs; cbn; auto with lia.
  destruct (OPCODES !! mnemonic_of c); cbn; auto with lia.
Qed.

Lemma assemble_loop_contiguous ls : forall i a,
  forallb no_directive ls = true ->
  let r := assemble_loop i ls (a, [], []) in
  r.1.1 = a + length r.1.2 /\
  forall k e, r.1.2 !! k = Some e -> address e = a + k.
Proof.
  induction ls as [|raw ls IH]; intros i a Hnd; cbn [assemble_loop].
  - cbn. split; [lia|]. intros k e H. discriminate H.
  - cbn [forallb] in Hnd. apply andb_true_iff in Hnd as [Hraw Hls].
    pose proof (assemble_line_no_directive i raw a Hraw) as Hs. cbn zeta in Hs.
    destruct (assemble_line i raw (a, [], [])) as [[a1 p1] e1]. cbn [fst snd] in Hs.
    destruct Hs as (Ha1 & Hl1 & Hp1).
    rewrite assemble_loop_appends. cbn zeta.
    specialize (IH (S i) a1 Hls). cbn zeta in IH.
    destruct (assemble_loop (S i) ls (a1, [], [])) as [[a2 p2] e2].
    cbn [fst snd] in IH |- *. destruct IH as [Ha2 Hp2].
    split; [rewrite length_app; lia|].
    intros k e Hk. apply lookup_app_Some in Hk as [Hk|[Hge Hk]].
    + assert (k < length p1) by (eapply lookup_lt_Some; exact Hk).
      assert (address e = a) as ->.
      { rewrite Forall_forall in Hp1. apply Hp1. eapply list_elem_of_lookup_2, Hk. }
      lia.
    + rewrite (Hp2 _ _ Hk). lia.
Qed.

Lemma last_address_contiguous (p : list entry) a :
  (forall k e, p !! k = Some e -> address e = a + k) -> p <> [] ->
  last_address p = a + length p - 1.
Proof.
  revert a. induction p as [|x p IH]; intros a H Hne; [congruence|].
  unfold last_address in *. cbn [map foldr length].
  pose proof (H 0 x eq_refl) as Hx.
  destruct p as [|y p].
  - cbn. lia.
  - rewrite (IH (S a)); [cbn [length]; lia | | discriminate].
    intros k e Hk. rewrite (H (S k) e Hk). lia.
Qed.

(** X3.  When no line of the text is an address directive, the entries are
    loaded at the addresses 0, 1, 2, ... in order; so the number of entries,
    with which [step] compares PC, is one more than the last loaded
    address. *)
Theorem program_without_directives_is_contiguous code :
  forallb no_directive (JS.split_char "010" code) = true ->
  let program := (assembleProgram code).1 in
  (forall k e, program !! k = Some e -> address e = k) /\
  (program <> [] -> last_address program + 1 = length program).
Proof.
  intros Hnd. cbv zeta. unfold assembleProgram. rewrite assemble_lines_eq. cbn [fst snd].
  destruct (assemble_loop_contiguous (JS.split_char "010" code) 0 0 Hnd) as [_ Hk].
  split; [exact Hk|].
  intros Hne. rewrite (last_address_contiguous _ 0 Hk Hne).
  destruct (assemble_loop 0 _ _).1.2; [congruence | cbn; lia].
Qed.

Lemma program_without_directives_is_contiguous_witness :
  let program := (assembleProgram (text ["IN"; "ADD 99"; "OUT"; "HLT"])).1 in
  last_address program + 1 = length program.
Proof.
  intros program.
  apply (program_without_directives_is_contiguous (text ["IN"; "ADD 99"; "OUT"; "HLT"])).
  - vm_compute. reflexivity.
  - vm_compute. discriminate.
Defined.

(** ** Programs that fit in the memory *)

(** X4.  Loading a text of at most 157 lines never changes the length of
    the memory of a reachable machine: every address that the assembler
    gives is below 256. *)
Theorem short_text_keeps_memory_length m code :
  reachable m ->
  length (JS.split_char "010" code) <= 157 ->
  Forall (fun e => address e < 256) (assembleProgram code).1 /\
  length (memory (loadProgram code m)) = length (memory m).
Proof.
  intros Hr Hlen.
  assert (Hb : Forall (fun e => address e < 256) (assembleProgram code).1).
  { unfold assembleProgram. rewrite assemble_lines_eq. cbn [fst snd].
    destruct (assemble_loop_shape (JS.split_char "010" code) 0 0) as (_ & Hall & _); [lia|].
    eapply Forall_impl; [exact Hall|]. cbn. intros e [? ?]. lia. }
  split; [exact Hb|].
  rewrite loadProgram_memory. destruct (0 <? _)%nat; [reflexivity|].
  apply load_words_length. pose proof (reachable_length m Hr).
  eapply Forall_impl; [exact Hb|]. cbn. intros e ?. lia.
Qed.

Lemma short_text_keeps_memory_length_witness :
  length (memory (loadProgram (text ["*99"; "DAT 1"; "DAT 2"]) machine0)) =
  length (memory machine0).
Proof.
  apply (short_text_keeps_memory_length machine0 (text ["*99"; "DAT 1"; "DAT 2"])).
  - apply reach_init.
  - vm_compute. lia.
Defined.

(** ** Decimal literals *)

Lemma parse_digits_some acc s :
  JS.digits1 s = true -> exists n, JS.parse_digits acc s = Some n.
Proof.
  assert (H : forall s acc, JS.all_digits s = true ->
                exists n, JS.parse_digits (Some acc) s = Some n).
  { induction s0 as [|c r IH]; intros acc0 Hd; cbn in *; [eauto|].
    apply andb_true_iff in Hd as [Hc Hr]. rewrite Hc. apply IH, Hr. }
  destruct s as [|c r]; [discriminate|]. unfold JS.digits1. cbn.
  intros Hd. apply andb_true_iff in Hd as [Hc Hr]. rewrite Hc. apply H, Hr.
Qed.

Lemma digit_not_space c : JS.is_digit c = true -> JS.is_space c = false.
Proof. destruct c as [[] [] [] [] [] [] [] []]; intros H; try discriminate H; reflexivity. Qed.

Lemma digit_not_sign c :
  JS.is_digit c = true -> c <> "-"%char /\ c <> "+"%char.
Proof. intros H. split; intros ->; discriminate H. Qed.

Lemma sign_match_other (x : ascii) (r : string) :
  x <> "-"%char -> x <> "+"%char ->
  (match String x r with
   | String "-" r' => ((-1)%Z, r')
   | String "+" r' => (1%Z, r')
   | _ => (1%Z, String x r)
   end) = (1%Z, String x r).
Proof. intros H1 H2. destruct x as [[] [] [] [] [] [] [] []]; try reflexivity; congruence. Qed.

Lemma parseInt_digits s :
  JS.digits1 s = true -> JS.parseInt s = match JS.parse_digits None s with
                                          | Some n => Num n
                                          | None => NaN
                                          end.
Proof.
  destruct s as [|c r]; [discriminate|]. intros Hd.
  assert (Hc : JS.is_digit c = true).
  { unfold JS.digits1 in Hd. cbn in Hd. apply andb_true_iff in Hd. tauto. }
  unfold JS.parseInt. cbn [JS.trimStart]. rewrite (digit_not_space c Hc).
  destruct (digit_not_sign c Hc) as [H1 H2]. rewrite (sign_match_other c r H1 H2).
  destruct (JS.parse_digits None (String c r)) as [n|]; [|reflexivity].
  f_equal. lia.
Qed.

Lemma is_integer_literal_cases s :
  JS.is_integer_literal s = true ->
  (exists r, s = String "-" r /\ JS.digits1 r = true) \/ JS.digits1 s = true.
Proof.
  destruct s as [|c r]; [discriminate|].
  destruct (ascii_dec c "-") as [->|Hn]; [left; eauto|].
  intros H. right. revert H.
  destruct c as [[] [] [] [] [] [] [] []]; try (intros H; exact H); congruence.
Qed.

(** X5.  A line that is a bare integer (an optional minus sign and decimal
    digits) always gives an entry DATA whose word is a number: [parseInt]
    never answers NaN on such a text. *)
Theorem integer_line_is_data i raw codeOnly a p e :
  mnemonic_or_data raw = Some codeOnly ->
  JS.is_integer_literal codeOnly = true ->
  exists z : Z,
    JS.parseInt codeOnly = Num z /\
    assemble_line i raw (a, p, e) = (S a, p ++ [Entry a (Num z) i "DATA" (Num z)], e).
Proof.
  unfold mnemonic_or_data, assemble_line. destruct (code_only raw) as [c|]; [|discriminate].
  destruct (JS.startsWith c "*"); [discriminate|].
  destruct (JS.startsWith (JS.toUpperCase c) "DAT"); [discriminate|].
  intros [= ->] Hlit. rewrite Hlit.
  assert (Hz : exists z, JS.parseInt codeOnly = Num z).
  { destruct (is_integer_literal_cases _ Hlit) as [(r & -> & Hd)|Hd].
    - unfold JS.parseInt. cbn [JS.trimStart].
      change (JS.is_space "-") with false. cbn iota.
      destruct (parse_digits_some None r Hd) as [n ->]. eauto.
    - rewrite (parseInt_digits _ Hd).
      destruct (parse_digits_some None codeOnly Hd) as [n ->]. eauto. }
  destruct Hz as [z Hz]. exists z. rewrite Hz. split; reflexivity.
Qed.

Lemma integer_line_is_data_witness :
  assemble_line 2 " -42 ; answer" (7, [], []) =
  (8, [Entry 7 (Num (-42)) 2 "DATA" (Num (-42))], []).
Proof.
  destruct (integer_line_is_data 2 " -42 ; answer" "-42" 7 [] [] eq_refl eq_refl)
    as (z & Hz & Hl).
  rewrite Hl. vm_compute in Hz. injection Hz as <-. reflexivity.
Defined.

(** ** Integers written in decimal *)

Lemma plain_trimStart s : plain s = true -> JS.trimStart s = s.
Proof.
  destruct s as [|c r]; [reflexivity|]. cbn. unfold plain_char.
  destruct (JS.is_space c); [discriminate | reflexivity].
Qed.

Lemma plain_trimEnd s : plain s = true -> JS.trimEnd s = s.
Proof.
  induction s as [|c r IH]; [reflexivity|]. cbn. unfold plain_char.
  destruct (JS.is_space c); [discriminate|]. cbn. intros H.
  apply andb_true_iff in H as [_ H]. rewrite (IH H). reflexivity.
Qed.

Lemma plain_trim s : plain s = true -> JS.trim s = s.
Proof. intros H. unfold JS.trim. rewrite plain_trimStart, plain_trimEnd by exact H. reflexivity. Qed.

Lemma plain_no_mark s :
  plain s = true -> JS.startsWith s "//" = false /\ JS.startsWith s ";" = false.
Proof.
  destruct s as [|c r]; [split; reflexivity|]. cbn [plain JS.startsWith]. unfold plain_char.
  destruct (Ascii.eqb "/" c), (Ascii.eqb ";" c), (JS.is_space c); cbn;
    try discriminate; split; reflexivity.
Qed.

Lemma plain_split_head s :
  plain s = true -> JS.split_head "//" s = s /\ JS.split_head ";" s = s.
Proof.
  induction s as [|c r IH]; [split; reflexivity|]. intros H.
  destruct (plain_no_mark _ H) as [H1 H2]. cbn [JS.split_head]. rewrite H1, H2.
  cbn [plain] in H. apply andb_true_iff in H as [_ H].
  destruct (IH H) as [-> ->]. split; reflexivity.
Qed.

Lemma plain_code_only s :
  plain s = true -> JS.is_empty s = false -> code_only s = Some s.
Proof.
  intros Hp He. unfold code_only. cbn zeta.
  destruct (plain_no_mark s Hp) as [H1 H2]. destruct (plain_split_head s Hp) as [H3 H4].
  rewrite (plain_trim s Hp), He, H1, H2. cbn [orb].
  rewrite H3, (plain_trim s Hp), He, H4, (plain_trim s Hp), He. reflexivity.
Qed.

Lemma digit_plain c : JS.is_digit c = true -> plain_char c = true.
Proof. destruct c as [[] [] [] [] [] [] [] []]; intros H; try discriminate H; reflexivity. Qed.

Lemma digits_plain s : JS.all_digits s = true -> plain s = true.
Proof.
  induction s as [|c r IH]; [reflexivity|]. cbn. intros H.
  apply andb_true_iff in H as [Hc Hr]. rewrite (digit_plain c Hc), (IH Hr). reflexivity.
Qed.

Local Ltac digit_arith Ho :=
  rewrite ?Ho, ?Nat.tail_mul_spec; cbn [from_option]; unfold id;
  match goal with
  | |- context [Z.of_N ?e] =>
      let v := eval vm_compute in (Z.of_N e) in change (Z.of_N e) with v
  end; lia.

Lemma parse_digits_of_uint d : forall (o : option Z) (acc : nat),
  default 0%Z o = Z.of_nat acc ->
  JS.parse_digits o (NilEmpty.string_of_uint d) =
  match d with
  | Decimal.Nil => o
  | _ => Some (Z.of_nat (Nat.of_uint_acc d acc))
  end.
Proof.
  induction d as [|d IH|d IH|d IH|d IH|d IH|d IH|d IH|d IH|d IH|d IH];
    intros o acc Ho; [reflexivity|..];
    cbn [NilEmpty.string_of_uint JS.parse_digits Nat.of_uint_acc];
    match goal with
    | |- context [JS.is_digit ?c] => change (JS.is_digit c) with true
    end; cbn iota;
    match goal with
    | |- JS.parse_digits (Some ?v) _ = Some (Z.of_nat (Nat.of_uint_acc _ ?a)) =>
        rewrite (IH (Some v) a) by digit_arith Ho;
        destruct d; [|reflexivity..];
        cbn [Nat.of_uint_acc]; f_equal; digit_arith Ho
    end.
Qed.

Lemma to_uint_nonnil n : Nat.to_uint n <> Decimal.Nil.
Proof.
  pose proof (DecimalNat.Unsigned.to_of (Nat.to_uint n)) as H.
  rewrite DecimalNat.Unsigned.of_to in H. rewrite H. apply DecimalFacts.unorm_nonnil.
Qed.

Lemma parse_digits_of_nat n :
  JS.parse_digits None (JS.of_nat n) = Some (Z.of_nat n).
Proof.
  unfold JS.of_nat. rewrite (parse_digits_of_uint (Nat.to_uint n) None 0 eq_refl).
  pose proof (to_uint_nonnil n) as Hn.
  change (Nat.of_uint_acc (Nat.to_uint n) 0) with (Nat.of_uint (Nat.to_uint n)).
  rewrite DecimalNat.Unsigned.of_to. destruct (Nat.to_uint n); [congruence | reflexivity..].
Qed.

Lemma of_nat_digits1 n : JS.digits1 (JS.of_nat n) = true.
Proof.
  unfold JS.digits1, JS.of_nat. rewrite all_digits_of_uint, andb_true_r.
  pose proof (to_uint_nonnil n). destruct (Nat.to_uint n); [congruence | reflexivity..].
Qed.

Lemma digit_not_star_D c :
  JS.is_digit c = true ->
  Ascii.eqb "*" c = false /\ Ascii.eqb "D" (JS.upper_char c) = false.
Proof.
  destruct c as [[] [] [] [] [] [] [] []]; intros H; try discriminate H; split; reflexivity.
Qed.

Lemma digits_not_directive s :
  JS.digits1 s = true ->
  JS.startsWith s "*" = false /\ JS.startsWith (JS.toUpperCase s) "DAT" = false.
Proof.
  destruct s as [|c r]; [discriminate|]. unfold JS.digits1. cbn [JS.is_empty negb andb JS.all_digits].
  intros H. apply andb_true_iff in H as [Hc _].
  destruct (digit_not_star_D c Hc) as [H1 H2].
  cbn [JS.toUpperCase JS.startsWith]. rewrite H1, H2. split; reflexivity.
Qed.

Lemma digits1_empty s : JS.digits1 s = true -> JS.is_empty s = false.
Proof. destruct s; [discriminate | reflexivity]. Qed.

Lemma digits1_all s : JS.digits1 s = true -> JS.all_digits s = true.
Proof. unfold JS.digits1. intros H. apply andb_true_iff in H. tauto. Qed.

Lemma digits1_literal s : JS.digits1 s = true -> JS.is_integer_literal s = true.
Proof.
  destruct s as [|c r]; [discriminate|]. intros H.
  assert (Hc : JS.is_digit c = true).
  { apply digits1_all in H. cbn in H. apply andb_true_iff in H. tauto. }
  destruct (digit_not_sign c Hc) as [Hn _]. revert H.
  destruct c as [[] [] [] [] [] [] [] []]; try (intros H; exact H); congruence.
Qed.

(** X6.  A decimal literal below 2^53 denotes its value.  The line made of
    the decimal digits of [n] gives the entry DATA with the word [n], the
    same line with a minus sign in front the word [-n], and [DAT] followed by
    the digits the entry DAT with the word [n].  (From 2^53 on [parseInt]
    answers the nearest double.) *)
Theorem decimal_literal_value i n a p e :
  (Z.of_nat n < 2 ^ 53)%Z ->
  assemble_line i (JS.of_nat n) (a, p, e) =
    (S a, p ++ [Entry a (Num (Z.of_nat n)) i "DATA" (Num (Z.of_nat n))], e) /\
  assemble_line i ("-" +:+ JS.of_nat n) (a, p, e) =
    (S a, p ++ [Entry a (Num (- Z.of_nat n)) i "DATA" (Num (- Z.of_nat n))], e) /\
  assemble_line i ("DAT " +:+ JS.of_nat n) (a, p, e) =
    (S a, p ++ [Entry a (Num (Z.of_nat n)) i "DAT" (Num (Z.of_nat n))], e).
Proof.
  intros _.
  pose proof (of_nat_digits1 n) as Hd. pose proof (digits1_all _ Hd) as Hall.
  pose proof (digits_plain _ Hall) as Hp. pose proof (digits1_empty _ Hd) as Hne.
  pose proof (parse_digits_of_nat n) as Hv.
  assert (Hparse : JS.parseInt (JS.of_nat n) = Num (Z.of_nat n)).
  { rewrite (parseInt_digits _ Hd), Hv. reflexivity. }
  split; [|split].
  - unfold assemble_line. rewrite (plain_code_only _ Hp Hne).
    destruct (digits_not_directive _ Hd) as [-> ->].
    rewrite (digits1_literal _ Hd), Hparse. reflexivity.
  - set (s := "-" +:+ JS.of_nat n).
    assert (Hs : s = String "-" (JS.of_nat n)) by reflexivity.
    assert (Hps : plain s = true) by (rewrite Hs; cbn [plain]; rewrite Hp; reflexivity).
    unfold assemble_line. rewrite (plain_code_only s Hps) by (rewrite Hs; reflexivity).
    rewrite Hs. cbn [JS.startsWith JS.toUpperCase].
    change (Ascii.eqb "*" "-") with false.
    change (Ascii.eqb "D" (JS.upper_char "-")) with false. cbn [andb].
    cbn [JS.is_integer_literal]. rewrite Hd.
    unfold JS.parseInt. cbn [JS.trimStart]. change (JS.is_space "-") with false.
    cbn iota. rewrite Hv.
    replace (-1 * Z.of_nat n)%Z with (- Z.of_nat n)%Z by lia. reflexivity.
  - set (s := "DAT " +:+ JS.of_nat n).
    assert (Hs : s = String "D" (String "A" (String "T" (String " " (JS.of_nat n)))))
      by reflexivity.
    assert (Hc : code_only s = Some s).
    { unfold code_only, JS.trim. cbn zeta. rewrite Hs.
      cbn [JS.trimStart]. change (JS.is_space "D") with false. cbn iota.
      cbn [JS.trimEnd]. rewrite (plain_trimEnd _ Hp), Hne, !andb_false_r.
      cbn [JS.is_empty JS.startsWith orb].
      change (Ascii.eqb "/" "D") with false. change (Ascii.eqb ";" "D") with false.
      cbn [andb orb]. destruct (plain_split_head _ Hp) as [H1 H2].
      destruct (plain_no_mark _ Hp) as [H3 H4].
      cbn [JS.split_head JS.startsWith].
      change (Ascii.eqb "/" "D") with false. change (Ascii.eqb "/" "A") with false.
      change (Ascii.eqb "/" "T") with false. change (Ascii.eqb "/" " ") with false.
      cbn [andb]. rewrite H1.
      cbn [JS.trimStart]. change (JS.is_space "D") with false. cbn iota.
      cbn [JS.trimEnd]. rewrite (plain_trimEnd _ Hp), Hne, !andb_false_r.
      cbn [JS.is_empty].
      cbn [JS.split_head JS.startsWith].
      change (Ascii.eqb ";" "D") with false. change (Ascii.eqb ";" "A") with false.
      change (Ascii.eqb ";" "T") with false. change (Ascii.eqb ";" " ") with false.
      cbn [andb]. rewrite H2.
      cbn [JS.trimStart]. change (JS.is_space "D") with false. cbn iota.
      cbn [JS.trimEnd]. rewrite (plain_trimEnd _ Hp), Hne, !andb_false_r.
      reflexivity. }
    unfold assemble_line. rewrite Hc, Hs.
    cbn [JS.startsWith JS.toUpperCase JS.substring].
    change (Ascii.eqb "*" "D") with false. cbn [andb].
    change (JS.upper_char "D") with "D"%char. change (JS.upper_char "A") with "A"%char.
    change (JS.upper_char "T") with "T"%char.
    rewrite !Ascii.eqb_refl, ?startsWith_nil. cbn [andb].
    assert (Ht : JS.trim (String " " (JS.of_nat n)) = JS.of_nat n).
    { unfold JS.trim. cbn [JS.trimStart]. change (JS.is_space " ") with true. cbn iota.
      apply (plain_trim _ Hp). }
    rewrite Ht, Hparse. reflexivity.
Qed.

Lemma decimal_literal_value_witness :
  assemble_line 3 "-250" (7, [], []) = (8, [Entry 7 (Num (-250)) 3 "DATA" (Num (-250))], []) /\
  assemble_line 3 "DAT 250" (7, [], []) = (8, [Entry 7 (Num 250) 3 "DAT" (Num 250)], []).
Proof.
  destruct (decimal_literal_value 3 250 7 [] []) as (_ & H2 & H3); [reflexivity|].
  split; [exact H2 | exact H3].
Defined.

(** ** Words of instructions *)

Lemma opcode_table name k :
  OPCODES !! name = Some k -> (0 <= k <= 8 \/ k = 901 \/ k = 902)%Z.
Proof.
  unfold OPCODES. intros H. apply elem_of_list_to_map_2 in H.
  repeat (apply elem_of_cons in H as [H|H]; [injection H as _ ->; lia|]).
  apply elem_of_nil in H. contradiction.
Qed.

Lemma switch_digit k :
  (0 <= k <= 9)%Z -> (switch (Num k) = default_case <-> k = 9%Z).
Proof.
  intros Hk.
  assert (H : (k = 0 \/ k = 1 \/ k = 2 \/ k = 3 \/ k = 4 \/ k = 5 \/ k = 6 \/ k = 7 \/
               k = 8 \/ k = 9)%Z) by lia.
  repeat (destruct H as [->|H]; [cbn; split; [discriminate | lia]|]).
  subst k. split; reflexivity.
Qed.

Lemma decode_word k r :
  (0 <= k <= 8)%Z -> (0 <= r < 100)%Z ->
  decode (Num (k * 100 + r)) = (Num k, Num r).
Proof.
  intros Hk Hr. rewrite decode_num by lia.
  destruct (Z.eqb_spec (k * 100 + r) 901); [lia|].
  destruct (Z.eqb_spec (k * 100 + r) 902); [lia|]. cbn [orb].
  rewrite Z.abs_eq by lia.
  replace ((k * 100 + r) / 100)%Z with k
    by (apply Z.div_unique with r; lia).
  rewrite !Z.rem_mod_nonneg by lia.
  rewrite (Z.mod_small k 10) by lia.
  replace ((k * 100 + r) mod 100)%Z with r
    by (apply Z.mod_unique with k; lia).
  reflexivity.
Qed.

(** X7.  Round trip of a word.  For a mnemonic of the table and an operand
    that is not negative and below 2^53, [decode] gives back from the
    assembled word the opcode of the mnemonic and the operand modulo 100 (0
    for IN and OUT), and the opcode is one that [execute] knows. *)
Theorem assembled_word_decodes i raw codeOnly k n a p e :
  mnemonic_line raw = Some codeOnly ->
  OPCODES !! mnemonic_of codeOnly = Some k ->
  operand_of codeOnly = Num n -> (0 <= n < 2 ^ 53)%Z ->
  exists w,
    assemble_line i raw (a, p, e) =
      (S a, p ++ [Entry a w i (mnemonic_of codeOnly) (Num n)], e) /\
    decode w =
      (Num k, if bool_decide (k = 901 \/ k = 902)%Z then Num 0 else Num (n mod 100)) /\
    switch (decode w).1 <> default_case.
Proof.
  intros Hl Hk Hn Hpos. exists (encode k (Num n)).
  rewrite (assemble_line_mnemonic i raw codeOnly a p e Hl), Hk, Hn.
  split; [reflexivity|].
  assert (Hd : decode (encode k (Num n)) =
               (Num k, if bool_decide (k = 901 \/ k = 902)%Z then Num 0 else Num (n mod 100))).
  { rewrite encode_integer.
    destruct (opcode_table _ _ Hk) as [Hr|[->| ->]]; [|reflexivity..].
    rewrite !bool_decide_eq_false_2 by lia.
    rewrite Z.rem_mod_nonneg by lia.
    apply decode_word; [lia|]. apply Z.mod_pos_bound. lia. }
  split; [exact Hd|]. rewrite Hd. cbn [fst].
  destruct (opcode_table _ _ Hk) as [Hr|[->| ->]]; [|discriminate..].
  intros E. apply switch_digit in E; lia.
Qed.

Lemma assembled_word_decodes_witness :
  exists w,
    assemble_line 0 "sto 142" (0, [], []) = (1, [Entry 0 w 0 "STO" (Num 142)], []) /\
    decode w = (Num 3, Num 42).
Proof.
  destruct (assembled_word_decodes 0 "sto 142" "sto 142" 3 142 0 [] [])
    as (w & H1 & H2 & _); [reflexivity | reflexivity | reflexivity | split; [lia | reflexivity] |].
  exists w. split; [exact H1 | exact H2].
Defined.

Lemma switch_decode_default v :
  safe_word v -> (switch (decode v).1 = default_case <-> unknown_word v).
Proof.
  destruct v as [w| |]; [|cbn; tauto..]. cbn [safe_word]. intros Hw.
  rewrite decode_num by exact Hw. unfold unknown_word.
  destruct (Z.eqb_spec w 901) as [->|H1]; [cbn; split; [discriminate | lia]|].
  destruct (Z.eqb_spec w 902) as [->|H2]; [cbn; split; [discriminate | lia]|].
  cbn [orb fst].
  assert (Hq : (0 <= Z.abs w / 100)%Z) by (apply Z.div_pos; lia).
  rewrite Z.rem_mod_nonneg by lia.
  pose proof (Z.mod_pos_bound (Z.abs w / 100) 10 ltac:(lia)) as Hb.
  rewrite switch_digit by lia. tauto.
Qed.

(** X8.  Let the fetched word be NaN or an integer below 2^53 in
    magnitude.  It comes to the default case of [execute] ("unknown opcode")
    exactly when it is NaN, or is other than 901 and 902 and has the hundreds
    digit 9; and a step on such a word makes the machine Errored and touches
    neither AC, nor the flags, nor the memory. *)
Theorem unknown_word_errors input m :
  stopped m = false ->
  safe_word (next_instruction m) ->
  (switch (next_opcode m) = default_case <-> unknown_word (next_instruction m)) /\
  (unknown_word (next_instruction m) ->
   let m' := step input m in
   error (state m') = true /\
   AC (cpu m') = AC (cpu m) /\ ZF (cpu m') = ZF (cpu m) /\ NF (cpu m') = NF (cpu m) /\
   memory m' = memory m).
Proof.
  intros Hs Hsafe. split; [apply switch_decode_default, Hsafe|].
  intros Hu m'. subst m'. apply (switch_decode_default _ Hsafe) in Hu.
  fold (next_opcode m) in Hu.
  rewrite step_error, step_cpu, step_memory by exact Hs.
  rewrite execute_phase_eq. cbn zeta. unfold execute. rewrite Hu. cbn.
  repeat split; reflexivity.
Qed.

Lemma unknown_word_errors_witness :
  let m := loadProgram (text ["DAT 950"; "HLT"]) machine0 in
  error (state (step None m)) = true /\ memory (step None m) = memory m.
Proof.
  intros m.
  assert (Hs : stopped m = false) by (vm_compute; reflexivity).
  assert (Hw : safe_word (next_instruction m)) by (vm_compute; reflexivity).
  destruct (proj2 (unknown_word_errors None m Hs Hw)) as (He & _ & _ & _ & Hm).
  - vm_compute. repeat split; discriminate.
  - split; [exact He | exact Hm].
Defined.

(** ** Loading: the last entry at an address wins *)

Lemma mem_write_read_eq a v mem :
  mem_read (mem_write a v mem) (Num (Z.of_nat a)) = v.
Proof.
  unfold mem_read, mem_write.
  destruct (Z.ltb_spec (Z.of_nat a) 0); [lia|]. rewrite Nat2Z.id.
  destruct (Nat.ltb_spec a (length mem)) as [Hlt|Hge].
  - rewrite list_lookup_insert_eq by exact Hlt. reflexivity.
  - rewrite lookup_app_r by exact Hge.
    rewrite lookup_app_r by (rewrite length_replicate; lia).
    rewrite length_replicate, Nat.sub_diag. reflexivity.
Qed.

Lemma load_words_snoc p e mem :
  load_words (p ++ [e]) mem = mem_write (address e) (bytecode e) (load_words p mem).
Proof. unfold load_words. rewrite foldl_app. reflexivity. Qed.

Lemma load_words_read p mem (a : nat) :
  mem_read (load_words p mem) (Num (Z.of_nat a)) =
  match List.find (fun e => (address e =? a)%nat) (rev p) with
  | Some e => bytecode e
  | None => mem_read mem (Num (Z.of_nat a))
  end.
Proof.
  induction p as [|e p IH] using rev_ind; [reflexivity|].
  rewrite load_words_snoc, rev_app_distr. cbn [rev app List.find].
  destruct (Nat.eqb_spec (address e) a) as [<-|Hne].
  - apply mem_write_read_eq.
  - rewrite mem_write_read_ne by exact Hne. exact IH.
Qed.

(** X9.  After a load without assembly error, an address reads as the word
    of the last entry of the program that has this address, and as before
    the load when no entry has it. *)
Theorem load_last_entry_wins code m (a : nat) :
  (assembleProgram code).2 = [] ->
  mem_read (memory (loadProgram code m)) (Num (Z.of_nat a)) =
  match List.find (fun e => (address e =? a)%nat) (rev (assembleProgram code).1) with
  | Some e => bytecode e
  | None => mem_read (memory m) (Num (Z.of_nat a))
  end.
Proof.
  intros He. rewrite loadProgram_memory, He. cbn [length Nat.ltb Nat.leb].
  apply load_words_read.
Qed.

Lemma load_last_entry_wins_witness :
  mem_read (memory (loadProgram (text ["DAT 1"; "*0"; "DAT 2"]) machine0)) (Num 0) = Num 2.
Proof.
  apply (eq_trans (load_last_entry_wins (text ["DAT 1"; "*0"; "DAT 2"]) machine0 0 eq_refl)).
  reflexivity.
Defined.

(** ** A load that fails *)

Lemma log_errors_console (errs : list string) m :
  console (foldl (fun m _ => log error_line m) m errs) =
  console m ++ replicate (length errs) error_line /\
  cpu (foldl (fun m _ => log error_line m) m errs) = cpu m.
Proof.
  revert m. induction errs as [|x errs IH]; intros m; cbn [foldl length replicate].
  - rewrite app_nil_r. split; reflexivity.
  - destruct (IH (log error_line m)) as [-> ->]. cbn [console cpu log].
    rewrite <- app_assoc. split; reflexivity.
Qed.

(** X10.  When the assembler reports an error, [loadProgram] writes
    nothing: registers, memory and program table are as before, the console
    gets one error line for each message, the machine is Errored, and no
    call of [step] does anything afterwards. *)
Theorem failed_load_blocks_machine code m :
  (assembleProgram code).2 <> [] ->
  let m' := loadProgram code m in
  cpu m' = cpu m /\ memory m' = memory m /\
  program (state m') = program (state m) /\
  error (state m') = true /\
  console m' = console m ++ replicate (length (assembleProgram code).2) error_line /\
  forall inputs, steps inputs m' = m'.
Proof.
  intros Hne m'.
  assert (He : error (state m') = true /\ program (state m') = program (state m) /\
               console m' = console m ++ replicate (length (assembleProgram code).2) error_line).
  { subst m'. unfold loadProgram. destruct (assembleProgram code) as [p errs].
    cbn [snd] in *. destruct errs as [|x errs]; [congruence|].
    change (0 <? length (x :: errs))%nat with true. cbn iota.
    cbn [state on_state set_error error program console].
    destruct (log_errors_state (x :: errs) m) as [-> _].
    destruct (log_errors_console (x :: errs) m) as [-> _]. repeat split. }
  destruct He as (He & Hp & Hc).
  split; [apply loadProgram_cpu|]. split.
  { subst m'. rewrite loadProgram_memory.
    destruct (assembleProgram code).2; [congruence | reflexivity]. }
  split; [exact Hp|]. split; [exact He|]. split; [exact Hc|].
  intros inputs. apply steps_stopped. unfold stopped. rewrite He. apply orb_true_r.
Qed.

Lemma failed_load_blocks_machine_witness :
  let m' := loadProgram (text ["LDA 1"; "FOO"; "BAR 2"]) machine0 in
  memory m' = memory machine0 /\ console m' = [error_line; error_line] /\
  steps [None; None] m' = m'.
Proof.
  intros m'.
  destruct (failed_load_blocks_machine (text ["LDA 1"; "FOO"; "BAR 2"]) machine0)
    as (_ & Hm & _ & _ & Hc & Hf).
  - vm_compute. discriminate.
  - split; [exact Hm|]. split; [exact Hc | apply Hf].
Defined.

(** ** Only [reset] restarts a stopped machine *)

Lemma loadProgram_flags code m :
  halted (state (loadProgram code m)) = halted (state m) /\
  (error (state m) = true -> error (state (loadProgram code m)) = true).
Proof.
  unfold loadProgram. destruct (assembleProgram code) as [p errs].
  destruct (0 <? length errs)%nat; cbn [state on_state log set_error set_program halted error].
  - destruct (log_errors_state errs m) as [-> _]. split; reflexivity.
  - split; [reflexivity | tauto].
Qed.

(** X11.  Once the machine is Halted or Errored it stays so through [step],
    [loadProgram], [loadExampleData] and [singleStep], whatever the text and
    the answers; [reset] alone makes it ready again.  So after an assembly
    error, loading a corrected text does not make the machine run. *)
Theorem only_reset_restarts m :
  stopped m = true ->
  (forall input, stopped (step input m) = true) /\
  (forall code, stopped (loadProgram code m) = true) /\
  (forall key, stopped (loadExampleData key m) = true) /\
  (forall code input, stopped (singleStep code input m) = true) /\
  stopped (reset m) = false.
Proof.
  intros Hs.
  assert (Hload : forall code, stopped (loadProgram code m) = true).
  { intros code. unfold stopped in *. destruct (loadProgram_flags code m) as [-> He].
    apply orb_true_iff in Hs as [->|Hs]; [reflexivity|].
    rewrite (He Hs). apply orb_true_r. }
  split; [intros input; rewrite step_stopped by exact Hs; exact Hs|].
  split; [exact Hload|]. split.
  { intros key. unfold stopped in *.
    destruct (loadExampleData_cpu_state key m) as [_ ->]. exact Hs. }
  split; [|reflexivity].
  intros code input. unfold singleStep.
  destruct (length (program (state m)) =? 0)%nat.
  - destruct (loadProgram_result code); [|apply Hload].
    rewrite step_stopped by apply Hload. apply Hload.
  - rewrite step_stopped by exact Hs. exact Hs.
Qed.

Lemma only_reset_restarts_witness :
  let m := loadProgram "FOO" machine0 in
  stopped (singleStep "HLT" None m) = true /\ stopped (reset m) = false.
Proof.
  intros m.
  assert (Hs : stopped m = true) by (vm_compute; reflexivity).
  destruct (only_reset_restarts m Hs) as (_ & _ & _ & H & Hr).
  split; [apply H | exact Hr].
Defined.

(** ** The cycle counter *)

Lemma execute_state input opcode operand m :
  let s := state (execute input opcode operand m).1 in
  cycle s = cycle (state m) /\ program s = program (state m) /\
  currentLine s = currentLine (state m).
Proof.
  unfold execute. destruct (switch opcode); cbn; case_ifs; cbn; try tauto;
    destruct input; cbn; case_ifs; cbn; tauto.
Qed.

Lemma step_cycle input m :
  stopped m = false -> cycle (state (step input m)) = S (cycle (state m)).
Proof.
  intros Hs. rewrite step_running by exact Hs.
  unfold check_end. destruct (past_program _); cbn [state log on_state set_halted cycle];
    destruct (highlight_flags (execute_phase input m)) as (_ & _ & _ & ->);
    rewrite execute_phase_eq; cbn zeta; cbn [state log];
    destruct (execute_state input (next_opcode m) (next_operand m)
                (fetch (on_state (fun s => set_cycle (S (cycle s)) s) m))) as (-> & _);
    reflexivity.
Qed.

Lemma stopped_step input m : stopped m = true -> stopped (step input m) = true.
Proof. intros H. rewrite step_stopped by exact H. exact H. Qed.

(** X12.  The cycle counter counts the cycles executed: a step of a machine
    that is not stopped adds one to it, a step of a stopped machine leaves
    it; so after any steps it has grown by at most their number, and by
    exactly their number when the machine is still not stopped. *)
Theorem cycle_counts_steps inputs m :
  cycle (state m) <= cycle (state (steps inputs m)) <= cycle (state m) + length inputs /\
  (stopped (steps inputs m) = false ->
   cycle (state (steps inputs m)) = cycle (state m) + length inputs).
Proof.
  revert m. induction inputs as [|input rest IH]; intros m; cbn [steps length].
  - split; [lia|]. intros _. lia.
  - destruct (IH (step input m)) as [Hb He].
    destruct (stopped m) eqn:Hs.
    + rewrite step_stopped in * by exact Hs. split; [lia|].
      intros Hn. rewrite steps_stopped in Hn by exact Hs. congruence.
    + rewrite step_cycle in * by exact Hs. split; [lia|].
      intros Hn. rewrite (He Hn). lia.
Qed.

(** ** The memory changes by STORE only *)

(** X13.  A step changes the memory only when it executes STORE, and then
    only the word at the operand, an address below 100, which becomes AC. *)
Theorem memory_changes_by_store_only input m :
  (stopped m = true \/ switch (next_opcode m) <> STORE ->
   memory (step input m) = memory m) /\
  (stopped m = false -> switch (next_opcode m) = STORE -> 100 <= length (memory m) ->
   exists a : nat,
     next_operand m = Num (Z.of_nat a) /\ a < 100 /\
     memory (step input m) = <[a := AC (cpu m)]> (memory m)).
Proof.
  split.
  - intros [Hs|Hn]; [rewrite step_stopped by exact Hs; reflexivity|].
    destruct (stopped m) eqn:Hs; [rewrite step_stopped by exact Hs; reflexivity|].
    rewrite step_memory by exact Hs. rewrite execute_phase_eq. cbn zeta. unfold execute.
    destruct (switch (next_opcode m)); try congruence; cbn; case_ifs; cbn;
      try reflexivity; destruct input; cbn; case_ifs; reflexivity.
  - intros Hs Hst Hlen.
    destruct (operand_in_range (next_instruction m)) as (z & Hz & Hb).
    { fold (next_opcode m). rewrite Hst. reflexivity. }
    fold (next_operand m) in Hz. exists (Z.to_nat z).
    split; [rewrite Hz; f_equal; lia|]. split; [lia|].
    rewrite step_memory by exact Hs. rewrite execute_phase_eq. cbn zeta. unfold execute.
    rewrite Hst, Hz. cbn. destruct (Z.ltb_spec z 0); [lia|].
    unfold mem_write. destruct (Nat.ltb_spec (Z.to_nat z) (length (memory m))); [reflexivity|lia].
Qed.

Lemma memory_changes_by_store_only_witness :
  let m := steps [None] (loadProgram (text ["LDA 3"; "STO 7"; "HLT"; "DAT 42"]) machine0) in
  exists a : nat, a < 100 /\ memory (step None m) = <[a := Num 42]> (memory m).
Proof.
  intros m.
  destruct (proj2 (memory_changes_by_store_only None m)) as (a & _ & Ha & Hm).
  - vm_compute. reflexivity.
  - vm_compute. reflexivity.
  - vm_compute. lia.
  - exists a. split; [exact Ha | exact Hm].
Defined.

(** ** Registers used as indices *)

Lemma execute_phase_indices input m :
  index_value (PC (cpu m)) ->
  index_value (PC (cpu (execute_phase input m))) /\
  index_value (MAR (cpu (execute_phase input m))).
Proof.
  intros (p & Hp & Hp0).
  assert (Hop : names_address (switch (next_opcode m)) = true ->
                index_value (next_operand m)).
  { intros H. destruct (operand_in_range (next_instruction m) H) as (z & Hz & Hb).
    exists z. split; [exact Hz | lia]. }
  assert (Hpc : index_value (JS.add (PC (cpu m)) (Num 1))).
  { rewrite Hp. exists (p + 1)%Z. split; [reflexivity | lia]. }
  assert (Hmar : index_value (PC (cpu m))) by (exists p; tauto).
  rewrite execute_phase_eq. cbn zeta. unfold execute.
  destruct (switch (next_opcode m)); cbn; case_ifs; cbn;
    try (split; first [exact Hpc | exact Hmar | apply Hop; reflexivity]);
    destruct input; cbn; case_ifs; cbn; split; assumption.
Qed.

(** X14.  In every reachable state PC and MAR hold integers that are not
    negative: the machine never uses NaN, [undefined] or a negative number as
    an index of the memory. *)
Theorem registers_are_indices m :
  reachable m -> index_value (PC (cpu m)) /\ index_value (MAR (cpu m)).
Proof.
  assert (H0 : index_value (Num 0)) by (exists 0%Z; split; [reflexivity | lia]).
  induction 1 as [|m _ _|code m _ IH|key m _ IH|input m _ IH].
  - split; exact H0.
  - split; exact H0.
  - rewrite loadProgram_cpu. exact IH.
  - destruct (loadExampleData_cpu_state key m) as [-> _]. exact IH.
  - destruct (stopped m) eqn:Hs; [rewrite step_stopped by exact Hs; exact IH|].
    rewrite step_cpu by exact Hs. apply execute_phase_indices, IH.
Qed.

Lemma registers_are_indices_witness :
  let m := steps [None] (loadProgram (text ["BR 42"]) machine0) in
  index_value (PC (cpu m)).
Proof.
  intros m. apply (registers_are_indices m).
  subst m. cbn [steps]. apply reach_step, reach_load, reach_init.
Defined.

(** ** The instruction IN *)

(** X15.  IN takes the answer of the dialog when [parseInt] reads from it
    an integer within -999..999: AC becomes that integer and the flags follow
    it.  A cancelled dialog, a text without a number and a number out of
    range make the machine Errored and leave AC and the flags as they were.
    The memory is unchanged in all cases. *)
Theorem input_instruction input m :
  stopped m = false ->
  switch (next_opcode m) = IN ->
  let m' := step input m in
  memory m' = memory m /\
  match accepted_input input with
  | Some v =>
      AC (cpu m') = Num v /\ ZF (cpu m') = (v =? 0)%Z /\ NF (cpu m') = (v <? 0)%Z /\
      error (state m') = false
  | None =>
      AC (cpu m') = AC (cpu m) /\ ZF (cpu m') = ZF (cpu m) /\ NF (cpu m') = NF (cpu m) /\
      error (state m') = true
  end.
Proof.
  intros Hs Hin m'. subst m'.
  assert (He : error (state m) = false).
  { unfold stopped in Hs. apply orb_false_iff in Hs. tauto. }
  rewrite step_error, step_cpu, step_memory by exact Hs.
  rewrite execute_phase_eq. cbn zeta. unfold execute, accepted_input. rewrite Hin.
  destruct input as [s|]; [|cbn; repeat split; reflexivity].
  destruct (JS.parseInt s) as [v| |]; cbn -[Z.leb Z.ltb Z.eqb]; [|repeat split; reflexivity..].
  destruct ((-999 <=? v)%Z && (v <=? 999)%Z); cbn -[Z.leb Z.ltb Z.eqb];
    repeat split; try reflexivity; exact He.
Qed.

Lemma input_instruction_witness :
  let m := loadProgram (text ["IN"; "HLT"]) machine0 in
  AC (cpu (step (Some " -12 apples") m)) = Num (-12) /\
  error (state (step (Some "1000") m)) = true /\
  error (state (step None m)) = true.
Proof.
  intros m.
  assert (Hs : stopped m = false) by (vm_compute; reflexivity).
  assert (Hi : switch (next_opcode m) = IN) by (vm_compute; reflexivity).
  pose proof (input_instruction (Some " -12 apples") m Hs Hi) as (_ & H1).
  pose proof (input_instruction (Some "1000") m Hs Hi) as (_ & H2).
  pose proof (input_instruction None m Hs Hi) as (_ & H3).
  vm_compute accepted_input in H1, H2, H3.
  split; [apply H1|]. split; [apply H2 | apply H3].
Defined.

(** ** Branches *)

Lemma reachable_zero_flag m :
  reachable m -> error (state m) = false ->
  ZF (cpu m) || JS.seq (AC (cpu m)) (Num 0) = JS.seq (AC (cpu m)) (Num 0).
Proof.
  intros Hr He. destruct (reachable_flags m Hr He) as [[-> _]|(-> & -> & _)].
  - apply orb_diag.
  - reflexivity.
Qed.

(** X16.  In a reachable state a branch sets PC to its operand, an address
    below 100: always for BRANCH, exactly when AC is 0 for BRZ (the test on
    the flag Z adds nothing), exactly when AC is 0 or more for BRP.
    Otherwise PC is the address after the instruction. *)
Theorem branch_targets input m :
  reachable m -> stopped m = false ->
  is_branch (switch (next_opcode m)) = true ->
  let taken :=
    match switch (next_opcode m) with
    | BRANCH => true
    | BRZ => JS.seq (AC (cpu m)) (Num 0)
    | _ => JS.ge (AC (cpu m)) (Num 0)
    end in
  (exists z, next_operand m = Num z /\ (0 <= z < 100)%Z) /\
  PC (cpu (step input m)) =
    (if taken then next_operand m else JS.add (PC (cpu m)) (Num 1)) /\
  AC (cpu (step input m)) = AC (cpu m) /\
  error (state (step input m)) = false.
Proof.
  intros Hr Hs Hb taken.
  assert (He : error (state m) = false).
  { unfold stopped in Hs. apply orb_false_iff in Hs. tauto. }
  split.
  { apply (operand_in_range (next_instruction m)). fold (next_opcode m).
    destruct (switch (next_opcode m)); try discriminate Hb; reflexivity. }
  pose proof (reachable_zero_flag m Hr He) as Hz. subst taken.
  rewrite step_error, step_cpu by exact Hs.
  rewrite execute_phase_eq. cbn zeta. unfold execute.
  destruct (switch (next_opcode m)); try discriminate Hb; cbn.
  - repeat split; exact He.
  - rewrite Hz. destruct (JS.seq (AC (cpu m)) (Num 0)); cbn; repeat split; exact He.
  - destruct (JS.ge (AC (cpu m)) (Num 0)); cbn; repeat split; exact He.
Qed.

Lemma branch_targets_witness :
  let m := loadProgram (text ["BRZ 7"; "HLT"]) machine0 in
  PC (cpu (step None m)) = Num 7.
Proof.
  intros m.
  assert (Hr : reachable m) by (apply reach_load, reach_init).
  destruct (branch_targets None m Hr) as (_ & Hpc & _).
  - vm_compute. reflexivity.
  - vm_compute. reflexivity.
  - rewrite Hpc. vm_compute. reflexivity.
Defined.

(** ** The console and the run *)

Lemma execute_same input opcode operand m1 m2 :
  same_machine m1 m2 ->
  same_machine (execute input opcode operand m1).1 (execute input opcode operand m2).1 /\
  (execute input opcode operand m1).2 = (execute input opcode operand m2).2.
Proof.
  destruct m1 as [c1 mem1 s1 con1], m2 as [c2 mem2 s2 con2].
  unfold same_machine. cbn [cpu memory state]. intros (<- & <- & <-).
  unfold execute. destruct (switch opcode); cbn; case_ifs; cbn; try (repeat split; reflexivity);
    destruct input; cbn; case_ifs; cbn; repeat split; reflexivity.
Qed.

Lemma highlight_same m1 m2 :
  same_machine m1 m2 -> same_machine (highlight m1) (highlight m2).
Proof.
  destruct m1 as [c1 mem1 s1 con1], m2 as [c2 mem2 s2 con2].
  unfold same_machine. cbn [cpu memory state]. intros (<- & <- & <-).
  unfold highlight. cbn [cpu state]. destruct (List.find _ _); cbn; tauto.
Qed.

Lemma check_end_same m1 m2 :
  same_machine m1 m2 -> same_machine (check_end m1) (check_end m2).
Proof.
  destruct m1 as [c1 mem1 s1 con1], m2 as [c2 mem2 s2 con2].
  unfold same_machine. cbn [cpu memory state]. intros (<- & <- & <-).
  unfold check_end, past_program. cbn [cpu state]. destruct (_ && _); cbn; tauto.
Qed.

Lemma step_same input m1 m2 :
  same_machine m1 m2 -> same_machine (step input m1) (step input m2).
Proof.
  intros Hsame. pose proof Hsame as (Hc & Hm & Hs).
  unfold step. rewrite Hs. destruct (halted (state m2) || error (state m2)); [exact Hsame|].
  assert (Hx : same_machine (execute_phase input m1) (execute_phase input m2)).
  { rewrite !execute_phase_eq. cbn zeta.
    assert (Hn : next_opcode m1 = next_opcode m2 /\ next_operand m1 = next_operand m2).
    { unfold next_opcode, next_operand, next_instruction. rewrite Hc, Hm. tauto. }
    destruct Hn as [-> ->].
    assert (Hf : same_machine (fetch (on_state (fun s => set_cycle (S (cycle s)) s) m1))
                              (fetch (on_state (fun s => set_cycle (S (cycle s)) s) m2))).
    { unfold same_machine, fetch, on_state, on_cpu. cbn. rewrite Hc, Hm, Hs. tauto. }
    destruct (execute_same input (next_opcode m2) (next_operand m2) _ _ Hf) as [Hr _].
    exact Hr. }
  apply check_end_same, highlight_same, Hx.
Qed.

Lemma steps_same inputs m1 m2 :
  same_machine m1 m2 -> same_machine (steps inputs m1) (steps inputs m2).
Proof.
  revert m1 m2. induction inputs as [|input rest IH]; intros m1 m2 H; cbn [steps];
    [exact H | apply IH, step_same, H].
Qed.

Lemma loadProgram_same code m1 m2 :
  same_machine m1 m2 -> same_machine (loadProgram code m1) (loadProgram code m2).
Proof.
  intros (Hc & Hm & Hs). unfold same_machine.
  rewrite !loadProgram_cpu, !loadProgram_memory, Hm. split; [exact Hc|]. split; [reflexivity|].
  unfold loadProgram. destruct (assembleProgram code) as [p errs].
  destruct (0 <? length errs)%nat; cbn [state on_state log].
  - destruct (log_errors_state errs m1) as [-> _].
    destruct (log_errors_state errs m2) as [-> _]. rewrite Hs. reflexivity.
  - cbn. rewrite Hs. reflexivity.
Qed.

(** X17.  Loading and running do not depend on what happened before a
    [reset]: after [reset] (the memory having its 256 words), a program
    loaded and run on any answers gives the registers, the memory and the
    state, cycle counter included, that it gives on a new machine. *)
Theorem run_after_reset_is_fresh m code inputs :
  length (memory m) = 256 ->
  same_machine (steps inputs (loadProgram code (reset m)))
               (steps inputs (loadProgram code machine0)).
Proof.
  intros Hlen. apply steps_same, loadProgram_same.
  unfold same_machine, reset, machine0, fill0. cbn [cpu memory state].
  rewrite Hlen. tauto.
Qed.

Lemma run_after_reset_is_fresh_witness :
  let m := steps [None; None] (loadProgram overflow_program machine0) in
  same_machine (steps [None; None] (loadProgram spec_program (reset m)))
               (steps [None; None] (loadProgram spec_program machine0)).
Proof.
  intros m. apply run_after_reset_is_fresh. vm_compute. reflexivity.
Defined.

(** ** Arithmetic within the range, and LOAD *)

(** X18.  ADD and SUB whose result is within -999..999 put it in AC, set
    the flags from it and raise no error; LOAD puts the word of the operand
    in AC and sets the flags, whatever the word (LOAD has no range check).
    The three move PC to the next address and leave the memory as it is. *)
Theorem accumulator_instructions input m :
  stopped m = false ->
  (switch (next_opcode m) = LOAD \/
   is_arith (switch (next_opcode m)) = true /\
   out_of_range (arith_result (switch (next_opcode m)) m) = false) ->
  let m' := step input m in
  AC (cpu m') =
    (if is_arith (switch (next_opcode m)) then arith_result (switch (next_opcode m)) m
     else mem_read (memory m) (next_operand m)) /\
  flag_invariant (cpu m') /\
  error (state m') = false /\
  memory m' = memory m /\
  PC (cpu m') = JS.add (PC (cpu m)) (Num 1).
Proof.
  intros Hs Hop m'. subst m'.
  assert (He : error (state m) = false).
  { unfold stopped in Hs. apply orb_false_iff in Hs. tauto. }
  rewrite step_error, step_cpu, step_memory by exact Hs.
  rewrite execute_phase_eq. cbn zeta. unfold execute, flag_invariant.
  destruct Hop as [Hop|[Hop Hr]].
  - rewrite Hop. cbn. repeat split; exact He.
  - destruct (switch (next_opcode m)); try discriminate Hop;
      unfold arith_result in Hr |- *; cbn in Hr |- *; rewrite Hr; cbn;
      repeat split; exact He.
Qed.

Lemma accumulator_instructions_witness :
  let m := steps [None] (loadProgram (text ["LDA 3"; "SUB 4"; "HLT"; "DAT 5"; "DAT 7"]) machine0) in
  AC (cpu (step None m)) = Num (-2) /\ flag_invariant (cpu (step None m)).
Proof.
  intros m.
  destruct (accumulator_instructions None m) as (Ha & Hf & _).
  - vm_compute. reflexivity.
  - right. vm_compute. split; reflexivity.
  - split; [rewrite Ha; vm_compute; reflexivity | exact Hf].
Defined.

(** ** STORE then LOAD *)

(** X19.  What STORE writes, LOAD reads back: when a STORE at an address is
    followed by a LOAD at the same address, AC after the two steps is AC
    before them. *)
Theorem store_then_load input1 input2 m (a : Z) :
  stopped m = false -> 100 <= length (memory m) ->
  switch (next_opcode m) = STORE -> next_operand m = Num a ->
  let m1 := step input1 m in
  stopped m1 = false ->
  switch (next_opcode m1) = LOAD -> next_operand m1 = Num a ->
  AC (cpu (step input2 m1)) = AC (cpu m) /\
  mem_read (memory (step input2 m1)) (Num a) = AC (cpu m).
Proof.
  intros Hs Hlen Hst Ha m1 Hs1 Hld Ha1.
  destruct (operand_in_range (next_instruction m)) as (z & Hz & Hb).
  { fold (next_opcode m). rewrite Hst. reflexivity. }
  fold (next_operand m) in Hz. rewrite Ha in Hz. injection Hz as <-.
  assert (Hm1 : mem_read (memory m1) (Num a) = AC (cpu m)).
  { subst m1. rewrite step_memory by exact Hs. rewrite execute_phase_eq. cbn zeta.
    unfold execute. rewrite Hst, Ha. cbn [fst snd memory log on_memory on_cpu cpu fetch
      set_MAR set_MBR set_IR set_PC MAR MBR AC on_state mem_store].
    destruct (Z.ltb_spec a 0); [lia|].
    rewrite <- (Z2Nat.id a) at 2 by lia. apply mem_write_read_eq. }
  assert (Hload : AC (cpu (step input2 m1)) = mem_read (memory m1) (Num a) /\
                  memory (step input2 m1) = memory m1).
  { rewrite step_cpu, step_memory by exact Hs1. rewrite execute_phase_eq. cbn zeta.
    unfold execute. rewrite Hld, Ha1. cbn. split; reflexivity. }
  destruct Hload as [-> ->]. split; exact Hm1.
Qed.

Lemma store_then_load_witness :
  let m := steps [Some "37"] (loadProgram (text ["IN"; "STO 50"; "LDA 50"; "HLT"]) machine0) in
  AC (cpu (steps [None; None] m)) = Num 37.
Proof.
  intros m.
  destruct (store_then_load None None m 50) as [Ha _].
  - vm_compute. reflexivity.
  - vm_compute. lia.
  - vm_compute. reflexivity.
  - vm_compute. reflexivity.
  - vm_compute. reflexivity.
  - vm_compute. reflexivity.
  - vm_compute. reflexivity.
  - cbn [steps]. rewrite Ha. vm_compute. reflexivity.
Defined.

(** ** The cursor of the scenario player *)

Lemma sim_next_value len i :
  (0 <= i < Z.of_nat len)%Z ->
  sim_next len (Num i) = Num ((i + 1) mod Z.of_nat len).
Proof.
  intros Hi. unfold sim_next. cbn.
  destruct (Z.eqb_spec (Z.of_nat len) 0); [lia|].
  rewrite Z.rem_mod_nonneg by lia. reflexivity.
Qed.

Lemma sim_prev_value len i :
  (0 <= i < Z.of_nat len)%Z ->
  sim_prev len (Num i) = Num ((i - 1) mod Z.of_nat len).
Proof.
  intros Hi. unfold sim_prev. cbn.
  destruct (Z.eqb_spec (Z.of_nat len) 0); [lia|].
  rewrite Z.rem_mod_nonneg by lia. f_equal.
  rewrite <- (Z.mod_add (i - 1) 1 (Z.of_nat len)) by lia. f_equal. lia.
Qed.

(** X20.  [next] and [prev] keep the index of the current step within the
    scenario and undo each other, and [next] repeated once for each step of
    the scenario comes back to the step where it started.  On a scenario
    without steps they give NaN. *)
Theorem cursor_round_trip len i :
  (0 <= i < Z.of_nat len)%Z ->
  (exists j, sim_next len (Num i) = Num j /\ (0 <= j < Z.of_nat len)%Z) /\
  (exists j, sim_prev len (Num i) = Num j /\ (0 <= j < Z.of_nat len)%Z) /\
  sim_prev len (sim_next len (Num i)) = Num i /\
  sim_next len (sim_prev len (Num i)) = Num i /\
  Nat.iter len (sim_next len) (Num i) = Num i /\
  sim_next 0 (Num i) = NaN /\ sim_prev 0 (Num i) = NaN.
Proof.
  intros Hi. set (n := Z.of_nat len) in *.
  assert (Hn : (0 < n)%Z) by lia.
  pose proof (Z.mod_pos_bound (i + 1) n Hn) as Hb1.
  pose proof (Z.mod_pos_bound (i - 1) n Hn) as Hb2.
  rewrite (sim_next_value len i Hi), (sim_prev_value len i Hi).
  fold n. rewrite (sim_prev_value len _ Hb1), (sim_next_value len _ Hb2). fold n.
  split; [eauto|]. split; [eauto|]. split; [|split; [|split]].
  - f_equal. rewrite Zminus_mod_idemp_l. replace (i + 1 - 1)%Z with i by lia.
    apply Z.mod_small, Hi.
  - f_equal. rewrite Zplus_mod_idemp_l. replace (i - 1 + 1)%Z with i by lia.
    apply Z.mod_small, Hi.
  - assert (Hk : forall k : nat,
              Nat.iter k (sim_next len) (Num i) = Num ((i + Z.of_nat k) mod n)).
    { induction k as [|k IH].
      - change (Nat.iter 0 (sim_next len) (Num i)) with (Num i).
        f_equal. change (Z.of_nat 0) with 0%Z. rewrite Z.add_0_r.
        symmetry. apply Z.mod_small, Hi.
      - rewrite Nat.iter_succ, IH, sim_next_value by (apply Z.mod_pos_bound, Hn).
        fold n. f_equal. rewrite Zplus_mod_idemp_l. f_equal. lia. }
    rewrite Hk. f_equal. fold n.
    rewrite <- (Z.mul_1_l n) at 1. rewrite Z.mod_add by lia. apply Z.mod_small, Hi.
  - split; reflexivity.
Qed.

Lemma cursor_round_trip_witness :
  sim_prev 5 (sim_next 5 (Num 4)) = Num 4 /\ sim_next 5 (Num 4) = Num 0.
Proof.
  destruct (cursor_round_trip 5 4) as (_ & _ & H & _); [lia|].
  split; [exact H | reflexivity].
Defined.

(** ** The clock of the scenario player *)

Lemma length_append_string (s t : string) :
  String.length (s +:+ t) = String.length s + String.length t.
Proof. induction s as [|c s IH]; [reflexivity|]. rewrite append_cons. cbn. rewrite IH. reflexivity. Qed.

Lemma length_zeros k :
  String.length (string_of_list_ascii (replicate k "0"%char)) = k.
Proof. induction k as [|k IH]; cbn; [reflexivity | rewrite IH; reflexivity]. Qed.

Lemma all_digits_pad k s :
  JS.all_digits (string_of_list_ascii (replicate k "0"%char) +:+ s) = JS.all_digits s.
Proof. induction k as [|k IH]; [reflexivity|]. cbn [replicate string_of_list_ascii]. rewrite append_cons. exact IH. Qed.

Lemma parse_digits_pad k s : forall o,
  default 0%Z o = 0%Z ->
  exists o', default 0%Z o' = 0%Z /\
    JS.parse_digits o (string_of_list_ascii (replicate k "0"%char) +:+ s) =
    JS.parse_digits o' s.
Proof.
  induction k as [|k IH]; intros o Ho; [exists o; split; [exact Ho | reflexivity]|].
  cbn [replicate string_of_list_ascii]. rewrite append_cons. cbn [JS.parse_digits].
  change (JS.is_digit "0") with true. cbn iota.
  apply IH. rewrite Ho. reflexivity.
Qed.

Lemma padded_value k n :
  JS.parseInt (padStart k "0" (JS.of_nat n)) = Num (Z.of_nat n).
Proof.
  unfold padStart. set (z := k - String.length (JS.of_nat n)).
  assert (Hd : JS.digits1 (string_of_list_ascii (replicate z "0"%char) +:+ JS.of_nat n) = true).
  { unfold JS.digits1. rewrite all_digits_pad, (digits1_all _ (of_nat_digits1 n)), andb_true_r.
    pose proof (digits1_empty _ (of_nat_digits1 n)) as He.
    destruct z; [rewrite append_nil, He; reflexivity | reflexivity]. }
  rewrite (parseInt_digits _ Hd).
  destruct (parse_digits_pad z (JS.of_nat n) None eq_refl) as (o' & Ho' & ->).
  unfold JS.of_nat. rewrite (parse_digits_of_uint (Nat.to_uint n) o' 0 Ho').
  pose proof (to_uint_nonnil n) as Hn.
  change (Nat.of_uint_acc (Nat.to_uint n) 0) with (Nat.of_uint (Nat.to_uint n)).
  rewrite DecimalNat.Unsigned.of_to. destruct (Nat.to_uint n); [congruence | reflexivity..].
Qed.

(** X21.  The clock and the instruction counter show the number of the step
    on at least four and two characters, filled with zeros on the left; the
    text reads back as the number, so two different steps never show the
    same text. *)
Theorem clock_text_reads_back n n' :
  String.length (formatClock n) = Nat.max 4 (String.length (JS.of_nat n)) /\
  String.length (formatInstruction n) = Nat.max 2 (String.length (JS.of_nat n)) /\
  JS.parseInt (formatClock n) = Num (Z.of_nat n) /\
  JS.parseInt (formatInstruction n) = Num (Z.of_nat n) /\
  (formatClock n = formatClock n' -> n = n') /\
  (formatInstruction n = formatInstruction n' -> n = n').
Proof.
  assert (Hlen : forall k m, String.length (padStart k "0" (JS.of_nat m)) =
                             Nat.max k (String.length (JS.of_nat m))).
  { intros k m. unfold padStart. rewrite length_append_string, length_zeros. lia. }
  assert (Hinj : forall k a b, padStart k "0" (JS.of_nat a) = padStart k "0" (JS.of_nat b) ->
                               a = b).
  { intros k a b H. apply (f_equal JS.parseInt) in H. rewrite !padded_value in H.
    injection H as H. lia. }
  unfold formatClock, formatInstruction.
  repeat split; [apply Hlen | apply Hlen | apply padded_value | apply padded_value
                 | apply Hinj | apply Hinj].
Qed.

Example clock_examples :
  formatClock 7 = "0007" /\ formatInstruction 7 = "07" /\ formatInstruction 123 = "123".
Proof. vm_compute. repeat split; reflexivity. Qed.

(** ** The address directive *)

(** X22.  The directive [*n] emits nothing and reports nothing: it sets the
    current address to [n] when [n] is at most 99, and is ignored, without an
    error, when [n] is larger. *)
Theorem directive_sets_address i n a p e :
  assemble_line i ("*" +:+ JS.of_nat n) (a, p, e) = (if (n <=? 99)%nat then n else a, p, e).
Proof.
  pose proof (of_nat_digits1 n) as Hd. pose proof (digits1_all _ Hd) as Hall.
  pose proof (digits_plain _ Hall) as Hp.
  set (s := "*" +:+ JS.of_nat n).
  assert (Hs : s = String "*" (JS.of_nat n)) by reflexivity.
  assert (Hps : plain s = true) by (rewrite Hs; cbn [plain]; rewrite Hp; reflexivity).
  unfold assemble_line. rewrite (plain_code_only s Hps) by (rewrite Hs; reflexivity).
  rewrite Hs. cbn [JS.startsWith JS.substring]. rewrite Ascii.eqb_refl, startsWith_nil.
  cbn [andb]. rewrite (parseInt_digits _ Hd), parse_digits_of_nat.
  cbn [JS.isNaN negb JS.ge JS.le andb index_of].
  destruct (Nat.leb_spec n 99) as [Hle|Hgt].
  - destruct (Z.leb_spec 0 (Z.of_nat n)); [|lia].
    destruct (Z.leb_spec (Z.of_nat n) 99); [|lia]. cbn [andb]. rewrite Nat2Z.id. reflexivity.
  - destruct (Z.leb_spec (Z.of_nat n) 99); [lia|]. rewrite andb_false_r. reflexivity.
Qed.

Example directive_examples :
  assembleProgram (text ["*98"; "DAT 1"; "*100"; "DAT 2"; "*x"; "DAT 3"]) =
  ([Entry 98 (Num 1) 1 "DAT" (Num 1); Entry 99 (Num 2) 3 "DAT" (Num 2);
    Entry 100 (Num 3) 5 "DAT" (Num 3)], []).
Proof. vm_compute. reflexivity. Qed.

(** ** The highlighted line *)

Lemma find_at_index {A} (f : A -> bool) (l : list A) : forall (base k : nat) (x : A),
  (forall j y, l !! j = Some y -> f y = (base + j =? base + k)%nat) ->
  l !! k = Some x -> List.find f l = Some x.
Proof.
  induction l as [|y l IH]; intros base k x Hf Hk; [discriminate Hk|].
  cbn [List.find]. rewrite (Hf 0 y eq_refl). destruct k as [|k].
  - rewrite Nat.eqb_refl. exact Hk.
  - destruct (Nat.eqb_spec (base + 0) (base + S k)); [lia|].
    apply (IH (S base) k x); [|exact Hk].
    intros j z Hj. rewrite (Hf (S j) z Hj).
    replace (base + S j) with (S base + j) by lia.
    replace (base + S k) with (S base + k) by lia. reflexivity.
Qed.

(** X23.  In a program whose entries are at the addresses 0, 1, 2, ... (a
    text without directive), after a step that executes the instruction of
    the entry at address [pc] and does not branch, the highlighted line is
    the line of that entry. *)
Theorem highlighted_line_is_executed_line input m (pc : nat) e :
  stopped m = false ->
  (forall k x, program (state m) !! k = Some x -> address x = k) ->
  PC (cpu m) = Num (Z.of_nat pc) ->
  program (state m) !! pc = Some e ->
  is_branch (switch (next_opcode m)) = false ->
  currentLine (state (step input m)) = Z.of_nat (line e).
Proof.
  intros Hs Haddr Hpc He Hb.
  rewrite step_running by exact Hs.
  assert (Hc : forall x, currentLine (state (check_end x)) = currentLine (state x)).
  { intros x. unfold check_end. destruct (past_program x); reflexivity. }
  rewrite Hc. unfold highlight.
  rewrite (execute_phase_PC input m Hb), Hpc.
  assert (Hprog : program (state (execute_phase input m)) = program (state m)).
  { rewrite execute_phase_eq. cbn zeta. cbn [state log].
    destruct (execute_state input (next_opcode m) (next_operand m)
                (fetch (on_state (fun s => set_cycle (S (cycle s)) s) m))) as (_ & -> & _).
    reflexivity. }
  rewrite Hprog.
  rewrite (find_at_index _ (program (state m)) 0 pc e); [reflexivity| |exact He].
  intros j y Hj. rewrite (Haddr j y Hj). cbn [JS.add JS.sub JS.seq Nat.add].
  destruct (Nat.eqb_spec j pc) as [->|Hne].
  - apply Z.eqb_eq. lia.
  - apply Z.eqb_neq. lia.
Qed.

Lemma highlighted_line_is_executed_line_witness :
  let m := steps [None] (loadProgram (text ["// sum"; "LDA 2"; ""; "ADD 2"; "DAT 4"]) machine0) in
  currentLine (state (step None m)) = 3%Z.
Proof.
  intros m.
  assert (H : exists e, program (state m) !! 1 = Some e /\ line e = 3)
    by (eexists; split; vm_compute; reflexivity).
  destruct H as (e & He & Hl).
  rewrite (highlighted_line_is_executed_line None m 1 e); [rewrite Hl; reflexivity|..].
  - vm_compute. reflexivity.
  - intros k x Hk. subst m. cbn [steps] in Hk. rewrite step_program in Hk.
    destruct (assemble_loop_contiguous
                (JS.split_char "010" (text ["// sum"; "LDA 2"; ""; "ADD 2"; "DAT 4"])) 0 0)
      as [_ Hc]; [vm_compute; reflexivity|].
    apply Hc. exact Hk.
  - vm_compute. reflexivity.
  - exact He.
  - vm_compute. reflexivity.
Defined.

(** ** Comments at the end of a line *)

Lemma append_empty_r s : s +:+ "" = s.
Proof. induction s as [|c s IH]; [reflexivity|]. rewrite append_cons, IH. reflexivity. Qed.

Lemma append_assoc_string (s t u : string) : (s +:+ t) +:+ u = s +:+ (t +:+ u).
Proof. induction s as [|c s IH]; [reflexivity|]. rewrite !append_cons, IH. reflexivity. Qed.

Lemma trimStart_append s x r :
  JS.is_space x = false ->
  JS.trimStart (s +:+ String x r) = JS.trimStart s +:+ String x r.
Proof.
  intros Hx. induction s as [|c s IH].
  - rewrite !append_nil. cbn [JS.trimStart]. rewrite Hx. reflexivity.
  - rewrite append_cons. cbn [JS.trimStart]. destruct (JS.is_space c); [exact IH|].
    rewrite append_cons. reflexivity.
Qed.

Lemma trimEnd_append s t :
  JS.is_empty (JS.trimEnd t) = false -> JS.trimEnd (s +:+ t) = s +:+ JS.trimEnd t.
Proof.
  intros Ht. induction s as [|c s IH]; [reflexivity|].
  rewrite !append_cons. cbn [JS.trimEnd]. rewrite IH.
  destruct s as [|d s]; [rewrite append_nil, Ht|rewrite append_cons; cbn [JS.is_empty]];
    rewrite andb_false_r; reflexivity.
Qed.

Lemma trimEnd_cons_nonspace x r :
  JS.is_space x = false -> JS.trimEnd (String x r) = String x (JS.trimEnd r).
Proof. intros Hx. cbn [JS.trimEnd]. rewrite Hx. reflexivity. Qed.

Lemma trimStart_first s :
  match JS.trimStart s with
  | String x _ => JS.is_space x = false
  | EmptyString => True
  end.
Proof.
  induction s as [|c s IH]; [exact I|]. cbn [JS.trimStart].
  destruct (JS.is_space c) eqn:E; [exact IH | exact E].
Qed.

Lemma trimEnd_idem s : JS.trimEnd (JS.trimEnd s) = JS.trimEnd s.
Proof.
  induction s as [|c s IH]; [reflexivity|]. cbn [JS.trimEnd].
  destruct (JS.is_space c && JS.is_empty (JS.trimEnd s)) eqn:E; [reflexivity|].
  cbn [JS.trimEnd]. rewrite IH, E. reflexivity.
Qed.

Lemma lacks_trimStart x s : lacks x s = true -> lacks x (JS.trimStart s) = true.
Proof.
  induction s as [|c s IH]; [reflexivity|]. cbn [JS.trimStart lacks].
  intros H. destruct (JS.is_space c); [|exact H].
  apply andb_true_iff in H as [_ H]. apply IH, H.
Qed.

Lemma lacks_trimEnd x s : lacks x s = true -> lacks x (JS.trimEnd s) = true.
Proof.
  induction s as [|c s IH]; [reflexivity|]. cbn [JS.trimEnd lacks].
  intros H. apply andb_true_iff in H as [Hc H].
  destruct (JS.is_space c && _); [reflexivity|]. cbn [lacks]. rewrite Hc, (IH H). reflexivity.
Qed.

Lemma split_head_lacks x sep s t :
  lacks x s = true ->
  JS.split_head (String x sep) (s +:+ t) = s +:+ JS.split_head (String x sep) t.
Proof.
  induction s as [|c s IH]; [reflexivity|]. cbn [lacks]. intros H.
  apply andb_true_iff in H as [Hc H]. apply negb_true_iff in Hc.
  rewrite !append_cons. cbn [JS.split_head JS.startsWith]. rewrite Hc. cbn [andb].
  rewrite (IH H). reflexivity.
Qed.

Lemma split_head_lacks_all x sep s :
  lacks x s = true -> JS.split_head (String x sep) s = s.
Proof.
  intros H. rewrite <- (append_empty_r s) at 1.
  rewrite (split_head_lacks x sep s "" H). apply append_empty_r.
Qed.

Lemma split_head_at_mark sep t : JS.split_head sep (sep +:+ t) = "".
Proof.
  destruct (sep +:+ t) as [|c r] eqn:E; [reflexivity|]. cbn [JS.split_head].
  rewrite <- E. rewrite <- (append_empty_r sep) at 2.
  rewrite startsWith_same_prefix, startsWith_nil. reflexivity.
Qed.

Lemma lacks_first x c r : lacks x (String c r) = true -> Ascii.eqb x c = false.
Proof. cbn [lacks]. intros H. apply andb_true_iff in H as [H _]. apply negb_true_iff, H. Qed.

Lemma trim_of_trimmed x r :
  JS.is_space x = false ->
  JS.trimEnd (JS.trimStart (JS.trimEnd (String x r))) = JS.trimEnd (String x r).
Proof.
  intros Hf. rewrite !(trimEnd_cons_nonspace x r Hf). cbn [JS.trimStart]. rewrite Hf.
  rewrite (trimEnd_cons_nonspace x _ Hf), trimEnd_idem. reflexivity.
Qed.

Lemma trim_idem s : JS.trim (JS.trim s) = JS.trim s.
Proof.
  unfold JS.trim. pose proof (trimStart_first s) as Hf.
  destruct (JS.trimStart s) as [|x r]; [reflexivity|].
  rewrite !(trimEnd_cons_nonspace x r Hf). cbn [JS.trimStart]. rewrite Hf.
  rewrite (trimEnd_cons_nonspace x _ Hf), trimEnd_idem. reflexivity.
Qed.

(** A line without comment mark: its text is the trimmed line. *)
Lemma code_only_clean raw :
  lacks "/" raw = true -> lacks ";" raw = true ->
  code_only raw = if JS.is_empty (JS.trim raw) then None else Some (JS.trim raw).
Proof.
  intros H1 H2. unfold code_only. cbn zeta.
  assert (Hu1 : lacks "/" (JS.trim raw) = true) by apply lacks_trimEnd, lacks_trimStart, H1.
  assert (Hu2 : lacks ";" (JS.trim raw) = true) by apply lacks_trimEnd, lacks_trimStart, H2.
  pose proof (trim_idem raw) as Hidem.
  destruct (JS.trim raw) as [|x u] eqn:Eu; [reflexivity|].
  cbn [JS.is_empty JS.startsWith orb].
  rewrite (lacks_first _ _ _ Hu1), (lacks_first _ _ _ Hu2). cbn [andb orb].
  rewrite (split_head_lacks_all "/" "/" _ Hu1), Hidem. cbn [JS.is_empty].
  rewrite (split_head_lacks_all ";" "" _ Hu2), Hidem. reflexivity.
Qed.

Lemma code_only_comment raw c :
  lacks "/" raw = true -> lacks ";" raw = true ->
  code_only (raw +:+ "//" +:+ c) = code_only raw /\
  code_only (raw +:+ ";" +:+ c) = code_only raw.
Proof.
  intros H1 H2. rewrite (code_only_clean raw H1 H2).
  pose proof (trimStart_first raw) as Hf.
  pose proof (lacks_trimStart _ _ H1) as Ht1. pose proof (lacks_trimStart _ _ H2) as Ht2.
  unfold code_only, JS.trim. cbn zeta.
  change ("//" +:+ c) with (String "/" (String "/" c)).
  change (";" +:+ c) with (String ";" c).
  rewrite !trimStart_append by reflexivity.
  rewrite !trimEnd_append by reflexivity.
  rewrite !trimEnd_cons_nonspace by reflexivity.
  destruct (JS.trimStart raw) as [|x r] eqn:ET; [rewrite !append_nil; cbn [JS.startsWith JS.is_empty]; rewrite !startsWith_nil;
     split; reflexivity|].
  assert (Hu : JS.is_empty (JS.trimEnd (String x r)) = false).
  { rewrite (trimEnd_cons_nonspace x r Hf). reflexivity. }
  rewrite Hu. rewrite !append_cons. cbn [JS.is_empty JS.startsWith orb].
  rewrite (lacks_first _ _ _ Ht1), (lacks_first _ _ _ Ht2). cbn [andb orb].
  rewrite <- !append_cons.
  split.
  - change (String "/" (String "/" (JS.trimEnd c))) with ("//" +:+ JS.trimEnd c).
    rewrite (split_head_lacks "/" "/" _ _ Ht1), split_head_at_mark, append_empty_r.
    cbn [JS.trimStart]. rewrite Hf, Hu.
    rewrite (split_head_lacks_all ";" "" _ (lacks_trimEnd _ _ Ht2)).
    rewrite (trim_of_trimmed x r Hf), Hu. reflexivity.
  - rewrite (split_head_lacks "/" "/" _ _ Ht1).
    cbn [JS.split_head JS.startsWith]. change (Ascii.eqb "/" ";") with false. cbn [andb].
    rewrite append_cons. cbn [JS.trimStart]. rewrite Hf. rewrite <- append_cons.
    rewrite trimEnd_append by reflexivity.
    rewrite (trimEnd_cons_nonspace ";" _ eq_refl).
    rewrite append_cons. cbn [JS.is_empty]. rewrite <- append_cons.
    change (String ";" (JS.trimEnd (JS.split_head "//" (JS.trimEnd c))))
      with (";" +:+ JS.trimEnd (JS.split_head "//" (JS.trimEnd c))).
    rewrite (split_head_lacks ";" "" _ _ Ht2), split_head_at_mark, append_empty_r.
    cbn [JS.trimStart]. rewrite Hf, Hu. reflexivity.
Qed.

(** X24.  A comment at the end of a line does not change what the line
    assembles to: for a text without the characters of the comment marks,
    the line followed by [//] or [;] and any comment gives the same address,
    entries and errors as the line alone. *)
Theorem trailing_comment_is_ignored i raw c st :
  lacks "/" raw = true -> lacks ";" raw = true ->
  assemble_line i (raw +:+ "//" +:+ c) st = assemble_line i raw st /\
  assemble_line i (raw +:+ ";" +:+ c) st = assemble_line i raw st.
Proof.
  intros H1 H2. destruct (code_only_comment raw c H1 H2) as [E1 E2].
  unfold assemble_line. rewrite E1, E2. split; reflexivity.
Qed.

Lemma trailing_comment_is_ignored_witness :
  assemble_line 0 ("  sto 12  " +:+ "//" +:+ " keep ; it") (0, [], []) =
  (1, [Entry 0 (Num 312) 0 "STO" (Num 12)], []).
Proof.
  rewrite (proj1 (trailing_comment_is_ignored 0 "  sto 12  " " keep ; it" (0, [], [])
                    eq_refl eq_refl)).
  reflexivity.
Defined.
